(** * pymake: the statement execution engine ([pymake/parserdata.py])

    A shallow embedding of [parserdata.py] and the properties of its
    statement execution that the specification states.

    Python values are modelled as follows.
    - [str] (a Python 2 byte string) is [string]; a character is [ascii].
    - [int] is [Z] (Python integers do not wrap).
    - A statement's [execute(makefile, context)] mutates both objects and may
      raise: it is a function from a makefile and a context to an outcome
      together with the makefile and the context as they are when it returns
      or raises (type [M]).
    - Rule objects are mutable and shared between targets, the implicit-rule
      sequence and the context, so they live in a store inside the makefile
      and are named by references.
    - [data.py], [parser.py], [util.py] and [globrelative.py] are not part of
      the sources at hand. What the engine needs from them is either taken as
      a parameter (class [Collaborators]) or modelled from the specification,
      each such definition saying so. *)

From Stdlib Require Import ZArith String Ascii List Lia Bool.
From stdpp Require Import base option list gmap strings pretty.

Local Open Scope string_scope.
Local Open Scope Z_scope.
Local Open Scope list_scope.

(* ===================================================================== *)
(** ** Python string primitives used by the module *)
(* ===================================================================== *)

Module PyStr.

(** The characters of a string, in order (iteration over a [str]). *)
Fixpoint chars (s : string) : list ascii :=
  match s with
  | EmptyString => []
  | String c r => c :: chars r
  end.

(** [len(s)] *)
Definition len (s : string) : Z := Z.of_nat (String.length s).

(** [s.startswith(p)] *)
Fixpoint startswith (p s : string) : bool :=
  match p, s with
  | EmptyString, _ => true
  | String a p', String b s' => if Ascii.eqb a b then startswith p' s' else false
  | String _ _, EmptyString => false
  end.

(** [s[n:]] for [0 <= n] *)
Fixpoint drop (n : nat) (s : string) : string :=
  match n, s with
  | O, _ => s
  | S n', String _ r => drop n' r
  | S _, EmptyString => EmptyString
  end.

(** [s.find(sep)]: the text before the first occurrence of [sep] and the
    text after it, or [None] when [sep] does not occur. *)
Fixpoint find_split (sep s : string) : option (string * string) :=
  if startswith sep s then Some (EmptyString, drop (String.length sep) s)
  else match s with
       | EmptyString => None
       | String c r =>
           match find_split sep r with
           | Some (before, after) => Some (String c before, after)
           | None => None
           end
       end.

(** [s.partition(sep)]: [(before, sep, after)] at the first occurrence of
    [sep], and [(s, '', '')] when [sep] does not occur. *)
Definition partition (s sep : string) : string * string * string :=
  match find_split sep s with
  | Some (before, after) => (before, sep, after)
  | None => (s, EmptyString, EmptyString)
  end.

(** The characters [str.strip()] removes: space, tab, newline, carriage
    return, vertical tab and form feed. *)
Definition isspace (c : ascii) : bool :=
  let n := nat_of_ascii c in
  (Nat.eqb n 32 || (Nat.leb 9 n && Nat.leb n 13))%bool.

Fixpoint lstrip (s : string) : string :=
  match s with
  | EmptyString => EmptyString
  | String c r => if isspace c then lstrip r else s
  end.

(** Removing trailing white space: a character is kept when it is not
    white space or when something is kept after it. *)
Fixpoint rstrip (s : string) : string :=
  match s with
  | EmptyString => EmptyString
  | String c r =>
      match rstrip r with
      | EmptyString => if isspace c then EmptyString else String c EmptyString
      | r' => String c r'
      end
  end.

(** [s.strip()] *)
Definition strip (s : string) : string := rstrip (lstrip s).

(** [sub in s] *)
Definition contains (sub s : string) : bool :=
  match find_split sub s with Some _ => true | None => false end.

End PyStr.

(* ===================================================================== *)
(** ** Locations *)
(* ===================================================================== *)

Definition _tabwidth : Z := 4.

Definition tab : ascii := ascii_of_nat 9.

(** [_charlocation(start, char)]: the column after one character. *)
Definition _charlocation (start : Z) (char : ascii) : Z :=
  if negb (Ascii.eqb char tab) then start + 1
  else start + _tabwidth - start mod _tabwidth.

(** [class Location], with its three slots. *)
Record Location : Type := mkLocation {
  path : string;
  line : Z;
  column : Z
}.

(** [Location.__add__(self, data)] *)
Definition Location_add (self : Location) (data : string) : Location :=
  let newcol := fold_left _charlocation (PyStr.chars data) (column self) in
  if newcol =? column self then self
  else mkLocation (path self) (line self) newcol.

(** [Location.__str__]: ["%s:%s:%s" % (path, line, column)] *)
Definition Location_str (self : Location) : string :=
  path self +:+ ":" +:+ pretty (line self) +:+ ":" +:+ pretty (column self).

(** No character of [s] is a tab. *)
Definition notabs (s : string) : Prop := ~ In tab (PyStr.chars s).


(** [s.split(sep)] for a one-character separator: the pieces between the
    occurrences of [sep], empty pieces included. *)
Fixpoint split_char (sep : ascii) (s : string) : list string :=
  match s with
  | EmptyString => [EmptyString]
  | String c r =>
      if Ascii.eqb c sep then EmptyString :: split_char sep r
      else match split_char sep r with
           | [] => [String c EmptyString]
           | w :: ws => String c w :: ws
           end
  end.

(* ===================================================================== *)
(** ** The build model and the collaborators of the engine *)
(* ===================================================================== *)

(** [data.Variables.FLAVOR_*]. Modelled from the spec: a stored value is
    either recursive (resolved again on every read) or simple (resolved
    once, stored as plain text). *)
Inductive Flavor : Type := FLAVOR_RECURSIVE | FLAVOR_SIMPLE.

(** [data.Variables.SOURCE_*]. Modelled from the spec: the four source
    ranks of a binding. *)
Inductive Source : Type :=
  SOURCE_OVERRIDE | SOURCE_COMMANDLINE | SOURCE_MAKEFILE | SOURCE_ENVIRONMENT.

#[global] Instance Flavor_eq_dec : EqDecision Flavor.
Proof. solve_decision. Defined.
#[global] Instance Source_eq_dec : EqDecision Source.
Proof. solve_decision. Defined.

(** Modelled from the spec: a variable scope ([data.Variables]) is a
    collection of bindings [name -> (flavor, source, value text)]. *)
Abbreviation Variables := (gmap string (Flavor * Source * string)).

(** What [execute] can raise: [data.DataError(msg, loc)],
    [parser.SyntaxError(msg, loc)], a failed [assert], and the
    [ValueError] of unpacking a set that has not exactly one element. *)
Inductive Exception : Type :=
| DataError (msg : string) (loc : Location)
| SyntaxError (msg : string) (loc : Location)
| AssertionError
| ValueError.

(** How a call ends. *)
Inductive Outcome (A : Type) : Type :=
| Returned (a : A)
| Raised (e : Exception).
Arguments Returned {A} a.
Arguments Raised {A} e.


(** What the engine takes from [data.py], [parser.py] and [globrelative.py]
    without looking inside: expansions, patterns, word splitting, the
    syntax parser, glob detection and the search-path table. *)
Class Syntax : Type := {
  (** [data.Expansion], its [loc] attribute and [Expansion.fromstring] *)
  Expansion : Type;
  Expansion_loc : Expansion -> Location;
  Expansion_fromstring : string -> Expansion;
  (** [data.Pattern(s)] and its methods; [Pattern_match p w] is the stem
      or [None] *)
  Pattern : Type;
  Pattern_new : string -> Pattern;
  Pattern_eq_dec :: EqDecision Pattern;
  ispattern : Pattern -> bool;
  gettarget : Pattern -> string;
  ismatchany : Pattern -> bool;
  Pattern_match : Pattern -> string -> option string;
  Pattern_str : Pattern -> string;
  (** [data.splitwords] *)
  splitwords : string -> list string;
  (** [parser.Data.fromstring(value, loc)] followed by
      [parser.parsemakesyntax(d, 0, (), parser.iterdata)], of which the
      engine keeps the expansion *)
  parsemakesyntax : string -> Location -> Expansion;
  (** [globrelative.hasglob] *)
  hasglob : string -> bool;
  (** the model's search-path rules with their three operations *)
  VPaths : Type;
  clearallvpaths : VPaths -> VPaths;
  clearvpath : Pattern -> VPaths -> VPaths;
  addvpath : Pattern -> list string -> VPaths -> VPaths;
  (** whether a binding from the first source keeps a [set] from the second
      source from taking effect *)
  outranks : Source -> Source -> bool;
  (** the location a stored recursive value is parsed at when it is read *)
  readloc : string -> Location
}.

Section Model.
Context `{Syntax}.

(** A rule object in the rule store: [data.Rule(deps, doublecolon, loc)]
    or [data.PatternRule(targetpatterns, prerequisites, doublecolon, loc)].
    Both collect the commands attached to them later. *)
Inductive RuleObject : Type :=
| RuleObj (prerequisites : list string) (doublecolon : bool)
          (loc : Location) (commands : list Expansion)
| PatternRuleObj (targetpatterns : list Pattern) (prerequisites : list Pattern)
                 (doublecolon : bool) (loc : Location) (commands : list Expansion).

(** What a target's table entry holds for each rule attached to it: a
    reference to a rule object, or
    [data.PatternRuleInstance(prule, dir, stem, ismatchany)] around a
    reference to a pattern rule object. *)
Inductive AttachedRule : Type :=
| RuleRef (r : nat)
| PatternRuleInstance (prule : nat) (dir : string) (stem : string) (matchany : bool).

(** Modelled from the spec: a target's table entry, with the rules
    attached to it and its own variable scope. *)
Record Target : Type := mkTarget {
  rules : list AttachedRule;
  tvariables : Variables
}.

(** Modelled from the spec: the "makefile" aggregate the engine mutates
    (section 6 of the specification): the global scope, the target table,
    the pattern-keyed scopes, the implicit-rule sequence, the discovered
    goal, the search-path rules, the exported set, the override list and
    the working directory. [rulestore] holds the rule objects; a rule
    reference is an index into it. *)
Record Makefile : Type := mkMakefile {
  variables : Variables;
  targets : gmap string Target;
  patternvariables : list (Pattern * Variables);
  implicitrules : list nat;
  rulestore : list RuleObject;
  defaulttarget : option string;
  vpaths : VPaths;
  exportedvars : gset string;
  overrides : list string;
  workdir : string
}.

Definition set_variables (f : Variables -> Variables) (m : Makefile) : Makefile :=
  mkMakefile (f (variables m)) (targets m) (patternvariables m) (implicitrules m)
    (rulestore m) (defaulttarget m) (vpaths m) (exportedvars m) (overrides m) (workdir m).
Definition set_targets (f : gmap string Target -> gmap string Target) (m : Makefile) : Makefile :=
  mkMakefile (variables m) (f (targets m)) (patternvariables m) (implicitrules m)
    (rulestore m) (defaulttarget m) (vpaths m) (exportedvars m) (overrides m) (workdir m).
Definition set_patternvariables (f : list (Pattern * Variables) -> list (Pattern * Variables))
    (m : Makefile) : Makefile :=
  mkMakefile (variables m) (targets m) (f (patternvariables m)) (implicitrules m)
    (rulestore m) (defaulttarget m) (vpaths m) (exportedvars m) (overrides m) (workdir m).
Definition set_implicitrules (f : list nat -> list nat) (m : Makefile) : Makefile :=
  mkMakefile (variables m) (targets m) (patternvariables m) (f (implicitrules m))
    (rulestore m) (defaulttarget m) (vpaths m) (exportedvars m) (overrides m) (workdir m).
Definition set_rulestore (f : list RuleObject -> list RuleObject) (m : Makefile) : Makefile :=
  mkMakefile (variables m) (targets m) (patternvariables m) (implicitrules m)
    (f (rulestore m)) (defaulttarget m) (vpaths m) (exportedvars m) (overrides m) (workdir m).
Definition set_defaulttarget (f : option string -> option string) (m : Makefile) : Makefile :=
  mkMakefile (variables m) (targets m) (patternvariables m) (implicitrules m)
    (rulestore m) (f (defaulttarget m)) (vpaths m) (exportedvars m) (overrides m) (workdir m).
Definition set_vpaths (f : VPaths -> VPaths) (m : Makefile) : Makefile :=
  mkMakefile (variables m) (targets m) (patternvariables m) (implicitrules m)
    (rulestore m) (defaulttarget m) (f (vpaths m)) (exportedvars m) (overrides m) (workdir m).
Definition set_exportedvars (f : gset string -> gset string) (m : Makefile) : Makefile :=
  mkMakefile (variables m) (targets m) (patternvariables m) (implicitrules m)
    (rulestore m) (defaulttarget m) (vpaths m) (f (exportedvars m)) (overrides m) (workdir m).
Definition set_overrides (f : list string -> list string) (m : Makefile) : Makefile :=
  mkMakefile (variables m) (targets m) (patternvariables m) (implicitrules m)
    (rulestore m) (defaulttarget m) (vpaths m) (exportedvars m) (f (overrides m)) (workdir m).

End Model.

(** The collaborators whose work depends on the whole model. *)
Class Collaborators `{Syntax} : Type := {
  (** [Expansion.resolve(makefile, variables)] *)
  resolve : Expansion -> Makefile -> Variables -> string;
  (** [globrelative.glob(workdir, pattern)], a reading of the file system *)
  glob : string -> string -> list string;
  (** [Variables.append(name, source, value, variables, makefile)], which
      mutates the scope it is called on *)
  Variables_append : Variables -> string -> Source -> string -> Variables -> Makefile -> Variables;
  (** [Makefile.include(path, required, loc)], which runs another file's
      statements on the model *)
  Makefile_include : string -> bool -> Location -> Makefile -> Outcome unit * Makefile
}.

(* ===================================================================== *)
(** ** Operations of the model the engine calls *)
(* ===================================================================== *)

Section Engine.
Context `{Collaborators}.

(** Modelled from the spec: [Variables.get(name, expand=False)], the stored
    binding as it is, [(None, None, None)] when the name is absent. *)
Definition Variables_get (self : Variables) (name : string)
    : option Flavor * option Source * option string :=
  match self !! name with
  | Some (flavor, source, value) => (Some flavor, Some source, Some value)
  | None => (None, None, None)
  end.

(** Modelled from the spec: [Variables.set(name, flavor, source, value)].
    The scope, not the engine, decides whether the new source may replace a
    binding it finds. *)
Definition Variables_set (self : Variables) (name : string) (flavor : Flavor)
    (source : Source) (value : string) : Variables :=
  match self !! name with
  | Some (_, prevsource, _) =>
      if outranks prevsource source then self
      else <[name := (flavor, source, value)]> self
  | None => <[name := (flavor, source, value)]> self
  end.

(** Modelled from the spec: reading a variable of the global scope. A simple
    value is the stored text; a recursive value is parsed and resolved
    against the model as it is at the time of the read. *)
Definition Variables_value (makefile : Makefile) (name : string) : option string :=
  match variables makefile !! name with
  | Some (FLAVOR_SIMPLE, _, value) => Some value
  | Some (FLAVOR_RECURSIVE, _, value) =>
      Some (resolve (parsemakesyntax value (readloc name)) makefile (variables makefile))
  | None => None
  end.

(** Modelled from the spec: the table entry of a target that has none yet. *)
Definition Target_new : Target := mkTarget [] ∅.

(** Modelled from the spec: [Makefile.gettarget(name)] creates the table
    entry on demand. *)
Definition Makefile_gettarget (name : string) (makefile : Makefile) : Makefile :=
  match targets makefile !! name with
  | Some _ => makefile
  | None => set_targets (fun tt => <[name := Target_new]> tt) makefile
  end.

(** Modelled from the spec: [makefile.gettarget(name).addrule(rule)] attaches
    the rule to the entry of the target, after the rules it has. *)
Definition Target_addrule (name : string) (rule : AttachedRule) (makefile : Makefile) : Makefile :=
  set_targets
    (fun tt => alter (fun t => mkTarget (rules t ++ [rule]) (tvariables t)) name tt)
    (Makefile_gettarget name makefile).

(** Modelled from the spec: [Makefile.appendimplicitrule(rule)]. *)
Definition Makefile_appendimplicitrule (rule : nat) (makefile : Makefile) : Makefile :=
  set_implicitrules (fun l => l ++ [rule]) makefile.

(** Modelled from the spec: [Makefile.foundtarget(name)] records a discovered
    goal if none has been recorded yet. *)
Definition Makefile_foundtarget (name : string) (makefile : Makefile) : Makefile :=
  set_defaulttarget
    (fun d => match d with Some g => Some g | None => Some name end) makefile.

(** The scope keyed by a pattern, if there is one. *)
Fixpoint patternvariables_lookup (p : Pattern) (l : list (Pattern * Variables))
    : option Variables :=
  match l with
  | [] => None
  | (q, v) :: rest => if decide (q = p) then Some v else patternvariables_lookup p rest
  end.

Fixpoint patternvariables_update (p : Pattern) (v : Variables)
    (l : list (Pattern * Variables)) : list (Pattern * Variables) :=
  match l with
  | [] => []
  | (q, w) :: rest =>
      if decide (q = p) then (q, v) :: rest
      else (q, w) :: patternvariables_update p v rest
  end.

(** Modelled from the spec: [Makefile.getpatternvariables(pattern)] creates
    the pattern-keyed scope on demand. *)
Definition Makefile_getpatternvariables (p : Pattern) (makefile : Makefile) : Makefile :=
  match patternvariables_lookup p (patternvariables makefile) with
  | Some _ => makefile
  | None => set_patternvariables (fun l => l ++ [(p, ∅)]) makefile
  end.

(** Creating a rule object: it is put in the store and named by its index. *)
Definition new_rule (obj : RuleObject) (makefile : Makefile) : nat * Makefile :=
  (length (rulestore makefile), set_rulestore (fun st => st ++ [obj]) makefile).

(** [addcommand] of [data.Rule] and [data.PatternRule]: the command is
    appended to the commands of the rule. *)
Definition RuleObject_addcommand (c : Expansion) (obj : RuleObject) : RuleObject :=
  match obj with
  | RuleObj deps dc loc commands => RuleObj deps dc loc (commands ++ [c])
  | PatternRuleObj tps deps dc loc commands => PatternRuleObj tps deps dc loc (commands ++ [c])
  end.

(** The scopes a [SetVariable] mutates are objects of the model; the
    statement holds references to them. *)
Inductive Scope : Type :=
| GlobalScope
| PatternScope (p : Pattern)
| TargetScope (name : string).

Definition Scope_get (v : Scope) (makefile : Makefile) : Variables :=
  match v with
  | GlobalScope => variables makefile
  | PatternScope p => default ∅ (patternvariables_lookup p (patternvariables makefile))
  | TargetScope name => default ∅ (tvariables <$> targets makefile !! name)
  end.

Definition Scope_put (v : Scope) (vars : Variables) (makefile : Makefile) : Makefile :=
  match v with
  | GlobalScope => set_variables (fun _ => vars) makefile
  | PatternScope p => set_patternvariables (patternvariables_update p vars) makefile
  | TargetScope name =>
      set_targets (alter (fun t => mkTarget (rules t) vars) name) makefile
  end.

(** What [context.currule] refers to: a [DummyRule()] or a rule object. *)
Inductive CurrentRule : Type :=
| DummyRule
| RuleAt (r : nat).

(** The execution context, an object with the one attribute [currule]
    ([None] when no rule is current). *)
Record ExecutionContext : Type := mkContext {
  currule : option CurrentRule
}.

(** Modelled from the spec: [util.makeobject('currule')], a fresh context;
    no rule is current. *)
Definition makeobject_currule : ExecutionContext := mkContext None.

(** A call on the model and the context: how it ends, and the two objects
    as the call leaves them. *)
Definition M (A : Type) : Type :=
  Makefile -> ExecutionContext -> Outcome A * Makefile * ExecutionContext.

(** A mutation of the model that cannot fail. *)
Definition modify (f : Makefile -> Makefile) : M unit :=
  fun makefile context => (Returned tt, f makefile, context).

End Engine.


(* ===================================================================== *)
(** ** Statements, conditions and their execution *)
(* ===================================================================== *)

Section Statements.
Context `{Collaborators}.

(** [_expandwildcards(makefile, tlist)]: a word without glob syntax is kept,
    a word with glob syntax is replaced by its matches, in order. *)
Definition _expandwildcards (makefile : Makefile) (tlist : list string) : list string :=
  flat_map (fun t => if negb (hasglob t) then [t] else glob (workdir makefile) t) tlist.

(** The subclasses of [Condition]; [expected] is the attribute that the
    negated forms set to [False]. *)
Inductive Condition : Type :=
| EqCondition (exp1 exp2 : Expansion) (expected : bool)
| IfdefCondition (exp : Expansion) (expected : bool)
| ElseCondition.

#[local] Set Warnings "-register-all".

(** The subclasses of [Statement] with the attributes their constructors
    store. The clauses of a [ConditionBlock] are its [_groups]. *)
Inductive Statement : Type :=
| Override (s : string)
| Rule (targetexp depexp : Expansion) (doublecolon : bool)
| StaticPatternRule (targetexp patternexp depexp : Expansion) (doublecolon : bool)
| Command (exp : Expansion)
| SetVariable (vnameexp : Expansion) (token : string) (value : string)
              (valueloc : Location) (targetexp : option Expansion) (source : Source)
| ConditionBlock (loc : Location) (_groups : list (Condition * list Statement))
| Include (exp : Expansion) (required : bool)
| VPathDirective (exp : Expansion)
| ExportDirective (exp : Expansion) (single : bool)
| EmptyDirective (exp : Expansion).

(** [SetVariable.__init__]: the source defaults to the makefile. *)
Definition SetVariable_init (vnameexp : Expansion) (token value : string)
    (valueloc : Location) (targetexp : option Expansion) (source : option Source) : Statement :=
  SetVariable vnameexp token value valueloc targetexp (default SOURCE_MAKEFILE source).

(** [parsecommandlineargs(args)]; [i] is the index of the argument at the
    head of [args], [stmts] and [r] are the two lists built so far. *)
Fixpoint parsecommandlineargs_from (i : Z) (args : list string)
    (stmts : list Statement) (r : list string) : list Statement * list string :=
  match args with
  | [] => (stmts, r)
  | a :: args' =>
      let '(vname, t, val) := PyStr.partition a ":=" in
      let '(vname, t, val) :=
        if String.eqb t "" then PyStr.partition a "=" else (vname, t, val) in
      if negb (String.eqb t "") then
        let stmts := stmts ++ [Override a] in
        let vname := PyStr.strip vname in
        let vnameexp := Expansion_fromstring vname in
        let stmts := stmts ++
          [SetVariable_init vnameexp t val
             (mkLocation "<command-line>" i (PyStr.len vname + PyStr.len t))
             None (Some SOURCE_COMMANDLINE)] in
        parsecommandlineargs_from (i + 1) args' stmts r
      else
        parsecommandlineargs_from (i + 1) args' stmts (r ++ [a])
  end.

Definition parsecommandlineargs (args : list string) : list Statement * list string :=
  parsecommandlineargs_from 0 args [] [].

(** [EqCondition.evaluate], [IfdefCondition.evaluate] and
    [ElseCondition.evaluate] *)
Definition Condition_evaluate (c : Condition) (makefile : Makefile) : bool :=
  match c with
  | EqCondition exp1 exp2 expected =>
      let r1 := resolve exp1 makefile (variables makefile) in
      let r2 := resolve exp2 makefile (variables makefile) in
      Bool.eqb (String.eqb r1 r2) expected
  | IfdefCondition exp expected =>
      let vname := resolve exp makefile (variables makefile) in
      let '(flavor, source, value) := Variables_get (variables makefile) vname in
      match value with
      | None => negb expected
      | Some value => Bool.eqb (0 <? PyStr.len value) expected
      end
  | ElseCondition => true
  end.

(** [ConditionBlock.addcondition(loc, condition)] on the block with
    attributes [self_loc] and [_groups]: how the call ends and the clauses
    of the block afterwards. *)
Definition ConditionBlock_addcondition (self_loc : Location)
    (_groups : list (Condition * list Statement)) (loc : Location) (condition : Condition)
    : Outcome unit * list (Condition * list Statement) :=
  match last _groups with
  | Some (ElseCondition, _) =>
      (Raised (SyntaxError
                 ("Multiple else conditions for block starting at " +:+ Location_str self_loc)
                 loc),
       _groups)
  | _ => (Returned tt, _groups ++ [(condition, [])])
  end.

(** [ConditionBlock.__init__(loc, condition)] *)
Definition ConditionBlock_init (loc : Location) (condition : Condition)
    : Outcome unit * list (Condition * list Statement) :=
  ConditionBlock_addcondition loc [] loc condition.

(** [ConditionBlock.append(statement)]: the statement joins the last clause.
    A block has a clause from its construction on. *)
Fixpoint ConditionBlock_append (_groups : list (Condition * list Statement))
    (statement : Statement) : list (Condition * list Statement) :=
  match _groups with
  | [] => []
  | [(c, statements)] => [(c, statements ++ [statement])]
  | g :: rest => g :: ConditionBlock_append rest statement
  end.

(** [Override.execute] *)
Definition Override_execute (s : string) : M unit :=
  modify (set_overrides (fun l => l ++ [s])).

(** [Rule.execute] *)
Definition Rule_execute (targetexp depexp : Expansion) (doublecolon : bool) : M unit :=
  fun makefile context =>
  let atargets := splitwords (resolve targetexp makefile (variables makefile)) in
  let targets := map Pattern_new (_expandwildcards makefile atargets) in
  match targets with
  | [] => (Returned tt, makefile, mkContext (Some DummyRule))
  | target0 :: _ =>
      let ispatterns : gset bool := list_to_set (map ispattern targets) in
      if (size ispatterns =? 2)%nat then
        (Raised (DataError "Mixed implicit and normal rule" (Expansion_loc targetexp)),
         makefile, context)
      else
        match (elements ispatterns : list bool) with
        | [ispat] =>
            let deps := _expandwildcards makefile
                          (splitwords (resolve depexp makefile (variables makefile))) in
            if ispat then
              let '(rule, makefile) :=
                new_rule (PatternRuleObj targets (map Pattern_new deps) doublecolon
                            (Expansion_loc targetexp) []) makefile in
              let makefile := Makefile_appendimplicitrule rule makefile in
              (Returned tt, makefile, mkContext (Some (RuleAt rule)))
            else
              let '(rule, makefile) :=
                new_rule (RuleObj deps doublecolon (Expansion_loc targetexp) []) makefile in
              let makefile :=
                fold_left (fun mk t => Target_addrule (gettarget t) (RuleRef rule) mk)
                  targets makefile in
              let makefile := Makefile_foundtarget (gettarget target0) makefile in
              (Returned tt, makefile, mkContext (Some (RuleAt rule)))
        | _ => (Raised ValueError, makefile, context)
        end
  end.

(** The loop of [StaticPatternRule.execute] over the targets: each target
    gets an instance of the shared pattern rule [rule]; the first target
    that is a pattern or does not match [pattern] ends the loop with an
    error, the targets before it keeping what was attached to them. *)
Fixpoint StaticPatternRule_attach (loc : Location) (rule : nat) (pattern : Pattern)
    (targets : list string) (makefile : Makefile) : Outcome unit * Makefile :=
  match targets with
  | [] => (Returned tt, makefile)
  | t :: targets' =>
      if ispattern (Pattern_new t) then
        (Raised (DataError
                   ("Target '" +:+ t +:+ "' of a static pattern rule must not be a pattern")
                   loc),
         makefile)
      else
        match Pattern_match pattern t with
        | None =>
            (Raised (DataError
                       ("Target '" +:+ t +:+ "' does not match the static pattern '"
                          +:+ Pattern_str pattern +:+ "'")
                       loc),
             makefile)
        | Some stem =>
            StaticPatternRule_attach loc rule pattern targets'
              (Target_addrule t (PatternRuleInstance rule "" stem (ismatchany pattern)) makefile)
        end
  end.

(** [StaticPatternRule.execute] *)
Definition StaticPatternRule_execute (targetexp patternexp depexp : Expansion)
    (doublecolon : bool) : M unit :=
  fun makefile context =>
  let targets := _expandwildcards makefile
                   (splitwords (resolve targetexp makefile (variables makefile))) in
  match targets with
  | [] => (Returned tt, makefile, mkContext (Some DummyRule))
  | target0 :: _ =>
      let patterns := splitwords (resolve patternexp makefile (variables makefile)) in
      match patterns with
      | [pattern0] =>
          let pattern := Pattern_new pattern0 in
          let deps := map Pattern_new
                        (_expandwildcards makefile
                           (splitwords (resolve depexp makefile (variables makefile)))) in
          let '(rule, makefile) :=
            new_rule (PatternRuleObj [pattern] deps doublecolon (Expansion_loc targetexp) [])
              makefile in
          match StaticPatternRule_attach (Expansion_loc targetexp) rule pattern targets makefile with
          | (Raised e, makefile) => (Raised e, makefile, context)
          | (Returned _, makefile) =>
              let makefile := Makefile_foundtarget target0 makefile in
              (Returned tt, makefile, mkContext (Some (RuleAt rule)))
          end
      | _ =>
          (Raised (DataError "Static pattern rules must have a single pattern"
                     (Expansion_loc patternexp)),
           makefile, context)
      end
  end.

(** [context.currule.addcommand(exp)]: a [DummyRule] discards the command, a
    rule object appends it to its commands. *)
Definition CurrentRule_addcommand (rule : CurrentRule) (exp : Expansion)
    (makefile : Makefile) : Makefile :=
  match rule with
  | DummyRule => makefile
  | RuleAt r => set_rulestore (alter (RuleObject_addcommand exp) r) makefile
  end.

(** [Command.execute] *)
Definition Command_execute (exp : Expansion) : M unit :=
  fun makefile context =>
  match currule context with
  | None => (Raised AssertionError, makefile, context)
  | Some rule => (Returned tt, CurrentRule_addcommand rule exp makefile, context)
  end.

(** The scopes named by the target expansion of a [SetVariable], each
    created on demand, in the order of the words. *)
Fixpoint SetVariable_scopes (targets : list Pattern) (makefile : Makefile)
    : list Scope * Makefile :=
  match targets with
  | [] => ([], makefile)
  | t :: targets' =>
      let '(v, makefile) :=
        if ispattern t then (PatternScope t, Makefile_getpatternvariables t makefile)
        else (TargetScope (gettarget t), Makefile_gettarget (gettarget t) makefile) in
      let '(setvariables, makefile) := SetVariable_scopes targets' makefile in
      (v :: setvariables, makefile)
  end.

(** The body of the loop of [SetVariable.execute] for the scope [v]. *)
Definition SetVariable_assign (vname token value : string) (valueloc : Location)
    (source : Source) (v : Scope) (makefile : Makefile) : Outcome unit * Makefile :=
  if String.eqb token "+=" then
    (Returned tt,
     Scope_put v (Variables_append (Scope_get v makefile) vname source value
                    (variables makefile) makefile) makefile)
  else if String.eqb token "?=" then
    let '(oldflavor, oldsource, oldval) := Variables_get (Scope_get v makefile) vname in
    match oldval with
    | Some _ => (Returned tt, makefile)
    | None =>
        (Returned tt,
         Scope_put v (Variables_set (Scope_get v makefile) vname FLAVOR_RECURSIVE source value)
           makefile)
    end
  else if String.eqb token "=" then
    (Returned tt,
     Scope_put v (Variables_set (Scope_get v makefile) vname FLAVOR_RECURSIVE source value)
       makefile)
  else if negb (String.eqb token ":=") then
    (Raised AssertionError, makefile)
  else
    let e := parsemakesyntax value valueloc in
    let value := resolve e makefile (variables makefile) in
    (Returned tt,
     Scope_put v (Variables_set (Scope_get v makefile) vname FLAVOR_SIMPLE source value)
       makefile).

(** The loop of [SetVariable.execute] over the selected scopes. *)
Fixpoint SetVariable_loop (vname token value : string) (valueloc : Location)
    (source : Source) (setvariables : list Scope) (makefile : Makefile)
    : Outcome unit * Makefile :=
  match setvariables with
  | [] => (Returned tt, makefile)
  | v :: rest =>
      match SetVariable_assign vname token value valueloc source v makefile with
      | (Returned _, makefile) => SetVariable_loop vname token value valueloc source rest makefile
      | (Raised e, makefile) => (Raised e, makefile)
      end
  end.

(** [SetVariable.execute] *)
Definition SetVariable_execute (vnameexp : Expansion) (token value : string)
    (valueloc : Location) (targetexp : option Expansion) (source : Source) : M unit :=
  fun makefile context =>
  let vname := resolve vnameexp makefile (variables makefile) in
  if PyStr.len vname =? 0 then
    (Raised (DataError "Empty variable name" (Expansion_loc vnameexp)), makefile, context)
  else
    let '(setvariables, makefile) :=
      match targetexp with
      | None => ([GlobalScope], makefile)
      | Some targetexp =>
          let targets := map Pattern_new
                           (splitwords (resolve targetexp makefile (variables makefile))) in
          SetVariable_scopes targets makefile
      end in
    let '(r, makefile) :=
      SetVariable_loop vname token value valueloc source setvariables makefile in
    (r, makefile, context).

(** The loop of [Include.execute]: the model includes each file in turn. *)
Fixpoint Include_loop (files : list string) (required : bool) (loc : Location)
    (makefile : Makefile) : Outcome unit * Makefile :=
  match files with
  | [] => (Returned tt, makefile)
  | f :: files' =>
      match Makefile_include f required loc makefile with
      | (Returned _, makefile) => Include_loop files' required loc makefile
      | (Raised e, makefile) => (Raised e, makefile)
      end
  end.

(** [Include.execute] *)
Definition Include_execute (exp : Expansion) (required : bool) : M unit :=
  fun makefile context =>
  let files := splitwords (resolve exp makefile (variables makefile)) in
  let '(r, makefile) := Include_loop files required (Expansion_loc exp) makefile in
  (r, makefile, context).

(** [VPathDirective.execute] *)
Definition VPathDirective_execute (exp : Expansion) : M unit :=
  fun makefile context =>
  let words := splitwords (resolve exp makefile (variables makefile)) in
  match words with
  | [] => (Returned tt, set_vpaths clearallvpaths makefile, context)
  | word0 :: mpaths =>
      let pattern := Pattern_new word0 in
      match mpaths with
      | [] => (Returned tt, set_vpaths (clearvpath pattern) makefile, context)
      | _ =>
          let dirs :=
            flat_map (fun mpath =>
                        filter (fun dir => dir <> "") (split_char ":" mpath)) mpaths in
          match dirs with
          | [] => (Returned tt, makefile, context)
          | _ => (Returned tt, set_vpaths (addvpath pattern dirs) makefile, context)
          end
      end
  end.

(** [ExportDirective.execute] *)
Definition ExportDirective_execute (exp : Expansion) (single : bool) : M unit :=
  fun makefile context =>
  let vlist :=
    if single then Returned [resolve exp makefile (variables makefile)]
    else
      match splitwords (resolve exp makefile (variables makefile)) with
      | [] => Raised (DataError "Exporting all variables is not supported" (Expansion_loc exp))
      | vlist => Returned vlist
      end in
  match vlist with
  | Raised e => (Raised e, makefile, context)
  | Returned vlist =>
      (Returned tt,
       set_exportedvars (fun ex => fold_left (fun ex v => ex ∪ {[v]}) vlist ex) makefile,
       context)
  end.

(** [EmptyDirective.execute] *)
Definition EmptyDirective_execute (exp : Expansion) : M unit :=
  fun makefile context =>
  let v := resolve exp makefile (variables makefile) in
  if negb (String.eqb (PyStr.strip v) "") then
    (Raised (DataError "Line expands to non-empty value" (Expansion_loc exp)), makefile, context)
  else (Returned tt, makefile, context).

(** [Statement.execute(makefile, context)], by the class of the statement.
    For a [ConditionBlock] the clauses are tried in order ([try_groups]);
    the statements of the first clause whose condition holds are executed
    ([run], the loop of [StatementList.execute]) and the block returns. *)
Fixpoint execute (s : Statement) (makefile : Makefile) (context : ExecutionContext)
    {struct s} : Outcome unit * Makefile * ExecutionContext :=
  match s with
  | Override s => Override_execute s makefile context
  | Rule targetexp depexp doublecolon =>
      Rule_execute targetexp depexp doublecolon makefile context
  | StaticPatternRule targetexp patternexp depexp doublecolon =>
      StaticPatternRule_execute targetexp patternexp depexp doublecolon makefile context
  | Command exp => Command_execute exp makefile context
  | SetVariable vnameexp token value valueloc targetexp source =>
      SetVariable_execute vnameexp token value valueloc targetexp source makefile context
  | ConditionBlock loc _groups =>
      (fix try_groups (groups : list (Condition * list Statement))
           : Outcome unit * Makefile * ExecutionContext :=
         match groups with
         | [] => (Returned tt, makefile, context)
         | (c, statements) :: groups' =>
             if Condition_evaluate c makefile then
               (fix run (l : list Statement) (makefile : Makefile)
                    (context : ExecutionContext)
                    : Outcome unit * Makefile * ExecutionContext :=
                  match l with
                  | [] => (Returned tt, makefile, context)
                  | s' :: l' =>
                      match execute s' makefile context with
                      | (Returned _, makefile, context) => run l' makefile context
                      | (Raised e, makefile, context) => (Raised e, makefile, context)
                      end
                  end) statements makefile context
             else try_groups groups'
         end) _groups
  | Include exp required => Include_execute exp required makefile context
  | VPathDirective exp => VPathDirective_execute exp makefile context
  | ExportDirective exp single => ExportDirective_execute exp single makefile context
  | EmptyDirective exp => EmptyDirective_execute exp makefile context
  end.

(** The loop of [StatementList.execute]: the statements are executed in
    order on the same model and context; the first one that raises ends the
    loop. *)
Fixpoint StatementList_run (self : list Statement) (makefile : Makefile)
    (context : ExecutionContext) : Outcome unit * Makefile * ExecutionContext :=
  match self with
  | [] => (Returned tt, makefile, context)
  | s :: rest =>
      match execute s makefile context with
      | (Returned _, makefile, context) => StatementList_run rest makefile context
      | (Raised e, makefile, context) => (Raised e, makefile, context)
      end
  end.

(** [StatementList.execute(makefile, context=None)] *)
Definition StatementList_execute (self : list Statement) (makefile : Makefile)
    (context : option ExecutionContext) : Outcome unit * Makefile * ExecutionContext :=
  let context := match context with
                 | None => makeobject_currule
                 | Some context => context
                 end in
  StatementList_run self makefile context.

(** [ConditionBlock.execute] with the loop over the clauses written on its
    own: [None] when no clause is met. *)
Fixpoint ConditionBlock_select (_groups : list (Condition * list Statement))
    (makefile : Makefile) : option (list Statement) :=
  match _groups with
  | [] => None
  | (c, statements) :: groups' =>
      if Condition_evaluate c makefile then Some statements
      else ConditionBlock_select groups' makefile
  end.

(** The split of a command-line argument as in section 4.2 of the
    specification: on [:=] first, and on [=] only if [:=] does not occur.
    The result is the text before the separator, the separator and the text
    after it; [None] when the argument contains neither separator. *)
Definition split_assignment (a : string) : option (string * string * string) :=
  match PyStr.find_split ":=" a with
  | Some (before, after) => Some (before, ":=", after)
  | None =>
      match PyStr.find_split "=" a with
      | Some (before, after) => Some (before, "=", after)
      | None => None
      end
  end.

(** The statements section 4.2 asks for the argument [a] at index [i]: none
    when it does not split, otherwise an [Override] with the raw argument
    followed by a [SetVariable] from the command line. *)
Definition commandline_statements (i : Z) (a : string) : list Statement :=
  match split_assignment a with
  | None => []
  | Some (before, t, after) =>
      [Override a;
       SetVariable (Expansion_fromstring (PyStr.strip before)) t after
         (mkLocation "<command-line>" i (PyStr.len (PyStr.strip before) + PyStr.len t))
         None SOURCE_COMMANDLINE]
  end.

(** The table entry of [name] after [n] attachments of [rule] to it: the
    entry as it was (a new one if there was none), with [n] more rules. *)
Definition attached (n : nat) (rule : AttachedRule) (entry : option Target) : option Target :=
  match n with
  | O => entry
  | S _ =>
      let old := default Target_new entry in
      Some (mkTarget (rules old ++ replicate n rule) (tvariables old))
  end.

(** How many of the words of [l] are [name]. *)
Definition occurrences (name : string) (l : list string) : nat :=
  length (filter (fun w => w = name) l).

(** Two models that differ at most in their target tables. *)
Definition same_but_targets (m1 m2 : Makefile) : Prop :=
  variables m1 = variables m2
  /\ patternvariables m1 = patternvariables m2
  /\ implicitrules m1 = implicitrules m2
  /\ rulestore m1 = rulestore m2
  /\ defaulttarget m1 = defaulttarget m2
  /\ vpaths m1 = vpaths m2
  /\ exportedvars m1 = exportedvars m2
  /\ overrides m1 = overrides m2
  /\ workdir m1 = workdir m2.


(** The table entry of [name] exists and holds [rule]. *)
Definition has_rule (makefile : Makefile) (name : string) (rule : AttachedRule) : Prop :=
  exists entry, targets makefile !! name = Some entry /\ rule ∈ rules entry.

(** The message of the error for a target that does not match the pattern
    of a static pattern rule. *)
Definition nomatch_message (t : string) (pattern : Pattern) : string :=
  "Target '" +:+ t +:+ "' does not match the static pattern '" +:+ Pattern_str pattern +:+ "'".

(** The character [=]. *)
Definition equals_sign : ascii := ascii_of_nat 61.

(** The raw argument of a statement that is an [Override]. *)
Definition override_argument (s : Statement) : option string :=
  match s with
  | Override a => Some a
  | _ => None
  end.

(** An else-clause, if the block has one, is the last clause of the block:
    no condition comes after an [ElseCondition]. *)
Definition else_only_last (_groups : list (Condition * list Statement)) : Prop :=
  forall pre post, map fst _groups = pre ++ ElseCondition :: post -> post = [].

(** What two runs that follow each other make: the second starts where the
    first returned, and does not start when the first raised. *)
Definition and_then (first : Outcome unit * Makefile * ExecutionContext)
    (second : Makefile -> ExecutionContext -> Outcome unit * Makefile * ExecutionContext)
    : Outcome unit * Makefile * ExecutionContext :=
  match first with
  | (Returned _, makefile, context) => second makefile context
  | (Raised e, makefile, context) => (Raised e, makefile, context)
  end.

(** The commands of a rule object. *)
Definition RuleObject_commands (obj : RuleObject) : list Expansion :=
  match obj with
  | RuleObj _ _ _ commands => commands
  | PatternRuleObj _ _ _ _ commands => commands
  end.

(** The character [:]. *)
Definition colon : ascii := ascii_of_nat 58.

(** The rules attached to a name: none when the name has no table entry. *)
Definition rules_of (makefile : Makefile) (name : string) : list AttachedRule :=
  default [] (rules <$> targets makefile !! name).

(** Two models that differ at most in the variable scopes of targets and
    patterns: the global scope, the rules of every target and everything
    else are the same. *)
Definition same_but_scoped_variables (m1 m2 : Makefile) : Prop :=
  variables m1 = variables m2
  /\ implicitrules m1 = implicitrules m2
  /\ rulestore m1 = rulestore m2
  /\ defaulttarget m1 = defaulttarget m2
  /\ vpaths m1 = vpaths m2
  /\ exportedvars m1 = exportedvars m2
  /\ overrides m1 = overrides m2
  /\ workdir m1 = workdir m2
  /\ forall name, rules_of m1 name = rules_of m2 name.

(** Two models that differ at most in the named part. *)
Definition same_but_vpaths (m1 m2 : Makefile) : Prop :=
  m1 = set_vpaths (fun _ => vpaths m1) m2.

Definition same_but_exportedvars (m1 m2 : Makefile) : Prop :=
  m1 = set_exportedvars (fun _ => exportedvars m1) m2.

(** A statement that is neither a rule nor a static pattern rule, and whose
    clauses, if it is a block, hold only such statements. *)
Fixpoint rule_free (s : Statement) : bool :=
  match s with
  | Rule _ _ _ | StaticPatternRule _ _ _ _ => false
  | ConditionBlock _ _groups =>
      forallb (fun g : Condition * list Statement => forallb rule_free g.2) _groups
  | _ => true
  end.

(** The text [sep] occurs in [s]. *)
Definition occurs (sep s : string) : Prop :=
  exists before after, s = before +:+ sep +:+ after.

(** Every character of [s] is white space. *)
Definition all_space (s : string) : Prop :=
  Forall (fun c => PyStr.isspace c = true) (PyStr.chars s).

(** [t] is [s] without its leading and trailing white space: [s] is [t]
    between two runs of white space, and [t] neither starts nor ends with
    white space. *)
Definition is_trim (s t : string) : Prop :=
  exists l r,
    s = l +:+ t +:+ r /\ all_space l /\ all_space r
    /\ (forall c t', t = String c t' -> PyStr.isspace c = false)
    /\ (forall t' d, t = t' +:+ String d "" -> PyStr.isspace d = false).





(** The model after the inclusion of each of [files] in turn. *)
Definition Include_all (files : list string) (required : bool) (loc : Location)
    (makefile : Makefile) : Makefile :=
  fold_left (fun mk f => (Makefile_include f required loc mk).2) files makefile.

(** The rule instance a static pattern rule gives a target with [stem]. *)
Definition StaticPatternRule_instance (rule : nat) (pattern : Pattern) (stem : string)
    : AttachedRule :=
  PatternRuleInstance rule "" stem (ismatchany pattern).

(** A target a static pattern rule accepts: explicit, and matching the
    pattern. *)
Definition StaticPatternRule_accepts (pattern : Pattern) (t : string) : Prop :=
  ispattern (Pattern_new t) = false /\ is_Some (Pattern_match pattern t).

(** The target table after the targets [done] of a static pattern rule have
    been given their instances of [rule]: the entry of a name has one
    instance, with the stem of the name, for each occurrence of the name in
    [done]. *)
Definition StaticPatternRule_entry (rule : nat) (pattern : Pattern) (done : list string)
    (makefile : Makefile) (name : string) : option Target :=
  match Pattern_match pattern name with
  | Some stem =>
      attached (occurrences name done) (StaticPatternRule_instance rule pattern stem)
        (targets makefile !! name)
  | None => targets makefile !! name
  end.

End Statements.

(* ===================================================================== *)
(** ** A small make dialect to run the engine on *)
(* ===================================================================== *)

(** A concrete choice for every collaborator, small enough to evaluate:
    an expansion is a sequence of literal texts and references [$(NAME)],
    a pattern is a word with at most one operative [%], words are separated
    by spaces, nothing on the file system matches a glob and no file can be
    included. The examples and the instances of the theorems below are
    computed with it. *)
Module Dialect.

Inductive Element : Type :=
| Literal (s : string)
| Reference (name : string).

Record Exp : Type := mkExp { elements_of : list Element; loc_of : Location }.

Definition noloc : Location := mkLocation "" 0 0.

(** The syntax parser: [$(NAME)] is a reference, anything else is literal
    text. [fuel] bounds the number of references. *)
Fixpoint parse_elements (fuel : nat) (s : string) : list Element :=
  match fuel with
  | O => [Literal s]
  | S fuel' =>
      match PyStr.find_split "$(" s with
      | None => if String.eqb s "" then [] else [Literal s]
      | Some (before, after) =>
          match PyStr.find_split ")" after with
          | None => [Literal s]
          | Some (name, rest) =>
              (if String.eqb before "" then [] else [Literal before])
                ++ Reference name :: parse_elements fuel' rest
          end
      end
  end.

Definition parse (s : string) (loc : Location) : Exp :=
  mkExp (parse_elements (String.length s) s) loc.

(** Resolution against a scope: a reference to an absent name is empty, to
    a simple value its text, to a recursive value the resolution of its
    parsed text. [fuel] bounds the depth of references. *)
Fixpoint resolve_elements (fuel : nat) (vars : Variables) (l : list Element) : string :=
  match fuel with
  | O => ""
  | S fuel' =>
      String.concat ""
        (map (fun e =>
                match e with
                | Literal s => s
                | Reference name =>
                    match vars !! name with
                    | None => ""
                    | Some (FLAVOR_SIMPLE, _, value) => value
                    | Some (FLAVOR_RECURSIVE, _, value) =>
                        resolve_elements fuel' vars
                          (parse_elements (String.length value) value)
                    end
                end) l)
  end.

(** A word is a pattern when it has a [%]; the stem is what the [%] stands
    for when the word starts with the text before it and ends with the text
    after it. *)
Definition pattern_parts (p : string) : option (string * string) := PyStr.find_split "%" p.

Definition endswith (suffix s : string) : bool :=
  PyStr.startswith (string_of_list_ascii (rev (list_ascii_of_string suffix)))
                   (string_of_list_ascii (rev (list_ascii_of_string s))).

Definition pattern_match (p word : string) : option string :=
  match pattern_parts p with
  | None => if String.eqb p word then Some word else None
  | Some (before, after) =>
      if (String.length before + String.length after <=? String.length word)%nat
         && PyStr.startswith before word && endswith after word
      then Some (String.substring (String.length before)
                   (String.length word - String.length before - String.length after) word)
      else None
  end.

Definition words (s : string) : list string :=
  filter (fun w => w <> "") (split_char " " s).

Definition rank (s : Source) : nat :=
  match s with
  | SOURCE_OVERRIDE => 0
  | SOURCE_COMMANDLINE => 1
  | SOURCE_MAKEFILE => 2
  | SOURCE_ENVIRONMENT => 3
  end.

#[global] Instance syntax : Syntax := {|
  Expansion := Exp;
  Expansion_loc := loc_of;
  Expansion_fromstring := fun s => mkExp [Literal s] noloc;
  Pattern := string;
  Pattern_new := fun s => s;
  ispattern := fun p => bool_decide (is_Some (pattern_parts p));
  gettarget := fun p => p;
  ismatchany := fun p => String.eqb p "%";
  Pattern_match := pattern_match;
  Pattern_str := fun p => p;
  splitwords := words;
  parsemakesyntax := parse;
  hasglob := fun s => PyStr.contains "*" s || PyStr.contains "?" s || PyStr.contains "[" s;
  VPaths := list (string * list string);
  clearallvpaths := fun _ => [];
  clearvpath := fun p t => filter (fun e => e.1 <> p) t;
  addvpath := fun p dirs t => t ++ [(p, dirs)];
  outranks := fun prev new => (rank prev <? rank new)%nat;
  readloc := fun name => mkLocation name 1 0
|}.

#[global] Instance collaborators : Collaborators := {|
  resolve := fun e _ vars => resolve_elements 8 vars (elements_of e);
  glob := fun _ _ => [];
  Variables_append := fun self name source value _ _ =>
    match self !! name with
    | Some (flavor, prevsource, old) => <[name := (flavor, prevsource, old +:+ " " +:+ value)]> self
    | None => <[name := (FLAVOR_RECURSIVE, source, value)]> self
    end;
  Makefile_include := fun _ _ _ makefile => (Returned tt, makefile)
|}.

(** A model with nothing in it, and an expansion that is one literal text. *)
Definition empty_makefile : Makefile :=
  mkMakefile ∅ ∅ [] [] [] None [] ∅ [] ".".

Definition lit (s : string) : Exp := mkExp [Literal s] (mkLocation "Makefile" 1 0).

(** The empty model with the one global binding [X], simple, from the
    makefile. *)
Definition with_X (x : string) : Makefile :=
  set_variables (fun v => <["X" := (FLAVOR_SIMPLE, SOURCE_MAKEFILE, x)]> v) empty_makefile.

(** A fresh context, and one whose current rule is the rule object [0]. *)
Definition fresh : ExecutionContext := makeobject_currule.
Definition at_rule0 : ExecutionContext := mkContext (Some (RuleAt 0)).

(** The empty model with one rule object, without commands, in its store. *)
Definition with_rule0 : Makefile :=
  set_rulestore (fun _ => [RuleObj ["a.c"] false (mkLocation "Makefile" 1 0) []]) empty_makefile.

(** The block [ifeq (a,b) ... else ... endif], each clause recording its
    name in the override list of the model. *)
Definition ifeq_else : list (Condition * list Statement) :=
  [(EqCondition (lit "a") (lit "b") true, [Override "then"]);
   (ElseCondition, [Override "else"])].

(** [X = 1], then [Y] assigned from [$(X)] with the operator [token], then
    [X = 2]. *)
Definition assign_then_change (token : string) : list Statement :=
  [SetVariable (lit "X") "=" "1" noloc None SOURCE_MAKEFILE;
   SetVariable (lit "Y") token "$(X)" noloc None SOURCE_MAKEFILE;
   SetVariable (lit "X") "=" "2" noloc None SOURCE_MAKEFILE].

End Dialect.

(** The same dialect with a file system of one file, [defs.mk], whose
    inclusion binds [DEFS] to [1]: including any other file fails when the
    file is required and does nothing when it is not. *)
Module Files.

Definition collaborators : @Collaborators Dialect.syntax := {|
  resolve := @resolve _ Dialect.collaborators;
  glob := @glob _ Dialect.collaborators;
  Variables_append := @Variables_append _ Dialect.collaborators;
  Makefile_include := fun f required loc makefile =>
    if String.eqb f "defs.mk"
    then (Returned tt,
          set_variables (fun v => <["DEFS" := (FLAVOR_RECURSIVE, SOURCE_MAKEFILE, "1")]> v)
            makefile)
    else if (required : bool)
    then (Raised (DataError ("No such file: " +:+ f) loc), makefile)
    else (Returned tt, makefile)
|}.

End Files.


(* ===================================================================== *)
(** ** Properties of the engine *)
(* ===================================================================== *)

Section Properties.
Context `{Collaborators}.

Lemma len_pos_nonempty (s : string) : (0 <? PyStr.len s) = bool_decide (s <> "").
Proof.
  unfold PyStr.len. destruct s as [|c s]; cbn.
  - rewrite bool_decide_eq_false_2; [reflexivity | intros Hne; now apply Hne].
  - rewrite bool_decide_eq_true_2; [|discriminate].
    apply Z.ltb_lt. lia.
Qed.

(** C1 (as amended). A definedness condition resolves its name expansion
    and looks the name up in the global scope, taking the stored text as it
    is. When the name is absent the result is the negation of [expected]:
    false for [ifdef], true for [ifndef]. When the name is bound the result
    is [(stored text is non-empty) == expected]. *)
Theorem IfdefCondition_evaluate_spec (exp : Expansion) (expected : bool) (makefile : Makefile) :
  Condition_evaluate (IfdefCondition exp expected) makefile =
    match variables makefile !! resolve exp makefile (variables makefile) with
    | None => negb expected
    | Some (_, _, value) => Bool.eqb (bool_decide (value <> "")) expected
    end.
Proof.
  cbn. unfold Variables_get.
  destruct (variables makefile !! resolve exp makefile (variables makefile))
    as [[[flavor source] value]|]; [|reflexivity].
  now rewrite len_pos_nonempty.
Qed.

(** C7. Adding a clause to a block whose last clause is an else-clause
    raises a syntax error at the location of the new clause, and the clauses
    of the block are what they were. The call involves no model: nothing
    has been executed. *)
Theorem ConditionBlock_addcondition_after_else (self_loc loc : Location)
    (clauses : list (Condition * list Statement)) (statements : list Statement)
    (condition : Condition) :
  ConditionBlock_addcondition self_loc (clauses ++ [(ElseCondition, statements)]) loc condition
  = (Raised (SyntaxError
               ("Multiple else conditions for block starting at " +:+ Location_str self_loc)
               loc),
     clauses ++ [(ElseCondition, statements)]).
Proof.
  unfold ConditionBlock_addcondition. now rewrite last_snoc.
Qed.

(** Adding a clause anywhere else appends it, with no statements yet. *)
Lemma ConditionBlock_addcondition_append (self_loc loc : Location)
    (clauses : list (Condition * list Statement)) (condition : Condition) :
  (forall statements, last clauses <> Some (ElseCondition, statements)) ->
  ConditionBlock_addcondition self_loc clauses loc condition
  = (Returned tt, clauses ++ [(condition, [])]).
Proof.
  intros Hlast. unfold ConditionBlock_addcondition.
  destruct (last clauses) as [[[] statements]|] eqn:E; try reflexivity.
  now destruct (Hlast statements).
Qed.

(** The inner loop of [ConditionBlock.execute] is the loop of
    [StatementList.execute]. *)
Lemma execute_ConditionBlock (loc : Location) (groups : list (Condition * list Statement))
    (makefile : Makefile) (context : ExecutionContext) :
  execute (ConditionBlock loc groups) makefile context =
    match ConditionBlock_select groups makefile with
    | Some statements => StatementList_execute statements makefile (Some context)
    | None => (Returned tt, makefile, context)
    end.
Proof.
  cbn [execute]. induction groups as [|[c statements] groups IH].
  - reflexivity.
  - cbn [ConditionBlock_select].
    destruct (Condition_evaluate c makefile); [|exact IH].
    unfold StatementList_execute. clear IH.
    revert makefile context.
    induction statements as [|s statements IHs]; intros makefile context.
    + reflexivity.
    + cbn [StatementList_run].
      destruct (execute s makefile context) as [[[[]|e] makefile'] context'].
      * apply IHs.
      * reflexivity.
Qed.

Lemma ConditionBlock_select_first (pre post : list (Condition * list Statement))
    (c : Condition) (statements : list Statement) (makefile : Makefile) :
  Forall (fun g => Condition_evaluate g.1 makefile = false) pre ->
  Condition_evaluate c makefile = true ->
  ConditionBlock_select (pre ++ (c, statements) :: post) makefile = Some statements.
Proof.
  intros Hpre Hc. induction Hpre as [|[c' s'] pre Hc' _ IH]; cbn.
  - now rewrite Hc.
  - cbn in Hc'. now rewrite Hc'.
Qed.

Lemma ConditionBlock_select_none (groups : list (Condition * list Statement))
    (makefile : Makefile) :
  Forall (fun g => Condition_evaluate g.1 makefile = false) groups ->
  ConditionBlock_select groups makefile = None.
Proof.
  intros Hall. induction Hall as [|[c' s'] pre Hc' _ IH]; cbn.
  - reflexivity.
  - cbn in Hc'. now rewrite Hc'.
Qed.

(** C6. Executing a conditional block on any model: when the clause
    [(c, statements)] is the first whose condition evaluates to true (every
    clause before it evaluates to false), the block does exactly what
    executing [statements] on the same model and context does, whatever the
    clauses after it are; when no condition evaluates to true the block
    returns and leaves the model and the context as they are. *)
Theorem ConditionBlock_execute_first_true (loc : Location)
    (makefile : Makefile) (context : ExecutionContext) :
  (forall pre c statements post,
     Forall (fun g => Condition_evaluate g.1 makefile = false) pre ->
     Condition_evaluate c makefile = true ->
     execute (ConditionBlock loc (pre ++ (c, statements) :: post)) makefile context
     = StatementList_execute statements makefile (Some context))
  /\ (forall groups,
        Forall (fun g => Condition_evaluate g.1 makefile = false) groups ->
        execute (ConditionBlock loc groups) makefile context = (Returned tt, makefile, context)).
Proof.
  split.
  - intros pre c statements post Hpre Hc.
    now rewrite execute_ConditionBlock, (ConditionBlock_select_first _ _ _ _ _ Hpre Hc).
  - intros groups Hall.
    now rewrite execute_ConditionBlock, (ConditionBlock_select_none _ _ Hall).
Qed.

(** C10. A [Command] executed when the context has no current rule fails
    the assertion, which is not a definition error, and changes nothing;
    that is what happens under a fresh context. When a rule is current the
    statement returns, the context is unchanged, and the model differs from
    what it was only by the command that the current rule has taken: every
    other part of the model, and every other rule object, is as before. *)
Theorem Command_execute_spec (exp : Expansion) (makefile : Makefile)
    (context : ExecutionContext) :
  (currule context = None ->
     execute (Command exp) makefile context = (Raised AssertionError, makefile, context))
  /\ StatementList_execute [Command exp] makefile None
     = (Raised AssertionError, makefile, makeobject_currule)
  /\ (forall rule, currule context = Some rule ->
        exists makefile',
          execute (Command exp) makefile context = (Returned tt, makefile', context)
          /\ makefile' = CurrentRule_addcommand rule exp makefile
          /\ variables makefile' = variables makefile
          /\ targets makefile' = targets makefile
          /\ patternvariables makefile' = patternvariables makefile
          /\ implicitrules makefile' = implicitrules makefile
          /\ defaulttarget makefile' = defaulttarget makefile
          /\ vpaths makefile' = vpaths makefile
          /\ exportedvars makefile' = exportedvars makefile
          /\ overrides makefile' = overrides makefile
          /\ workdir makefile' = workdir makefile
          /\ match rule with
             | DummyRule => rulestore makefile' = rulestore makefile
             | RuleAt r =>
                 rulestore makefile' !! r = RuleObject_addcommand exp <$> rulestore makefile !! r
                 /\ forall r', r' <> r -> rulestore makefile' !! r' = rulestore makefile !! r'
             end).
Proof.
  split; [|split].
  - intros Hnone. cbn. unfold Command_execute. now rewrite Hnone.
  - reflexivity.
  - intros rule Hrule. eexists. split.
    + cbn. unfold Command_execute. rewrite Hrule. reflexivity.
    + destruct rule as [|r]; cbn; repeat split.
      * apply list_lookup_alter_eq.
      * intros r' Hne. apply list_lookup_alter_ne. congruence.
Qed.

(** The set of classifications of a list of targets is one of the four
    sets of booleans, according to what the list contains. *)
Lemma ispatterns_cases (l : list bool) :
  (true ∈ l /\ false ∈ l /\ (list_to_set l : gset bool) = {[true; false]})
  \/ (true ∈ l /\ (false ∉ l) /\ (list_to_set l : gset bool) = {[true]})
  \/ ((true ∉ l) /\ false ∈ l /\ (list_to_set l : gset bool) = {[false]})
  \/ (l = [] /\ (list_to_set l : gset bool) = ∅).
Proof.
  destruct (decide (true ∈ l)) as [Ht|Ht], (decide (false ∈ l)) as [Hf|Hf].
  - left. repeat split; try assumption.
    apply set_eq. intros []; rewrite elem_of_list_to_set; set_solver.
  - right; left. repeat split; try assumption.
    apply set_eq. intros []; rewrite elem_of_list_to_set; set_solver.
  - right; right; left. repeat split; try assumption.
    apply set_eq. intros []; rewrite elem_of_list_to_set; set_solver.
  - right; right; right.
    destruct l as [|[] l]; [split; reflexivity | |]; exfalso; set_solver.
Qed.

Lemma elem_of_map_ispattern (b : bool) (targets : list Pattern) :
  b ∈ map ispattern targets <-> exists t, t ∈ targets /\ ispattern t = b.
Proof.
  rewrite list_elem_of_In, in_map_iff.
  split; intros (t & H1 & H2); exists t; rewrite ?list_elem_of_In in *; auto.
Qed.

(** C4. When the resolved, wildcard-expanded target list of a [Rule] has a
    pattern and a word that is not a pattern, executing the statement raises
    the definition error "Mixed implicit and normal rule" at the location of
    the target expansion, and the model (its target table and implicit-rule
    sequence among the rest) and the context are what they were. *)
Theorem Rule_execute_mixed (targetexp depexp : Expansion) (doublecolon : bool)
    (makefile : Makefile) (context : ExecutionContext) :
  let targets := map Pattern_new
                   (_expandwildcards makefile
                      (splitwords (resolve targetexp makefile (variables makefile)))) in
  (exists t, t ∈ targets /\ ispattern t = true) ->
  (exists t, t ∈ targets /\ ispattern t = false) ->
  execute (Rule targetexp depexp doublecolon) makefile context
  = (Raised (DataError "Mixed implicit and normal rule" (Expansion_loc targetexp)),
     makefile, context).
Proof.
  intros targets Hpat Hexp. cbn [execute]. unfold Rule_execute. fold targets.
  apply elem_of_map_ispattern in Hpat, Hexp.
  destruct targets as [|target0 targets'] eqn:E.
  - exfalso. cbn in Hpat. set_solver.
  - rewrite <- E in *.
    destruct (ispatterns_cases (map ispattern targets))
      as [(_ & _ & ->)|[(_ & Hf & _)|[(Ht & _ & _)|(Hnil & _)]]].
    + reflexivity.
    + contradiction.
    + contradiction.
    + rewrite Hnil in Hpat. set_solver.
Qed.

Lemma attached_attached (j k : nat) (rule : AttachedRule) (entry : option Target) :
  attached k rule (attached j rule entry) = attached (j + k) rule entry.
Proof.
  destruct j as [|j]; [reflexivity|].
  destruct k as [|k].
  - now rewrite Nat.add_0_r.
  - unfold attached. cbn [default from_option id rules tvariables].
    rewrite <- app_assoc, <- replicate_add. reflexivity.
Qed.

Lemma Target_addrule_lookup (n name : string) (rule : AttachedRule) (makefile : Makefile) :
  targets (Target_addrule n rule makefile) !! name
  = attached (if decide (n = name) then 1 else 0) rule (targets makefile !! name).
Proof.
  unfold Target_addrule, Makefile_gettarget.
  destruct (targets makefile !! n) as [entry|] eqn:E; cbn [set_targets targets].
  - destruct (decide (n = name)) as [<-|Hne].
    + now rewrite lookup_alter_eq, E.
    + now rewrite lookup_alter_ne.
  - destruct (decide (n = name)) as [<-|Hne].
    + now rewrite lookup_alter_eq, lookup_insert_eq, E.
    + now rewrite lookup_alter_ne, lookup_insert_ne.
Qed.

Lemma occurrences_cons (name n : string) (l : list string) :
  occurrences name (n :: l) = ((if decide (n = name) then 1 else 0) + occurrences name l)%nat.
Proof.
  unfold occurrences. rewrite filter_cons.
  destruct (decide (n = name)); reflexivity.
Qed.

(** Attaching [rule] to each of the targets [ts] in turn: the entry of a
    name gets the rule once for each of its occurrences in [ts]. *)
Lemma fold_addrule_lookup (rule : AttachedRule) (ts : list string) (makefile : Makefile)
    (name : string) :
  targets (fold_left (fun mk t => Target_addrule t rule mk) ts makefile) !! name
  = attached (occurrences name ts) rule (targets makefile !! name).
Proof.
  revert makefile. induction ts as [|t ts IH]; intros makefile.
  - reflexivity.
  - cbn [fold_left]. rewrite IH, Target_addrule_lookup, attached_attached.
    now rewrite occurrences_cons.
Qed.

Lemma Target_addrule_frame (n : string) (rule : AttachedRule) (makefile : Makefile) :
  same_but_targets (Target_addrule n rule makefile) makefile.
Proof.
  unfold Target_addrule, Makefile_gettarget, same_but_targets.
  destruct (targets makefile !! n); cbn; repeat split.
Qed.

Lemma fold_addrule_frame (rule : AttachedRule) (ts : list string) (makefile : Makefile) :
  same_but_targets (fold_left (fun mk t => Target_addrule t rule mk) ts makefile) makefile.
Proof.
  revert makefile. induction ts as [|t ts IH]; intros makefile.
  - repeat split.
  - cbn [fold_left].
    destruct (IH (Target_addrule t rule makefile)) as (?&?&?&?&?&?&?&?&?).
    destruct (Target_addrule_frame t rule makefile) as (?&?&?&?&?&?&?&?&?).
    repeat split; congruence.
Qed.

Lemma fold_left_map_gettarget (rule : AttachedRule) (ts : list Pattern) (makefile : Makefile) :
  fold_left (fun mk t => Target_addrule (gettarget t) rule mk) ts makefile
  = fold_left (fun mk t => Target_addrule t rule mk) (map gettarget ts) makefile.
Proof.
  revert makefile. induction ts as [|t ts IH]; intros makefile; [reflexivity|].
  cbn. apply IH.
Qed.

Lemma Forall_ispattern_elem (b : bool) (tlist : list Pattern) :
  Forall (fun t => ispattern t = b) tlist -> negb b ∉ map ispattern tlist.
Proof.
  intros Hall Hin. apply elem_of_map_ispattern in Hin as (t & Hin & Ht).
  rewrite Forall_forall in Hall. apply Hall in Hin.
  rewrite Hin in Ht. now destruct b.
Qed.

(** The classifications of a non-empty list of targets that are all of one
    kind form the set with that kind alone. *)
Lemma ispatterns_uniform (b : bool) (tlist : list Pattern) :
  tlist <> [] -> Forall (fun t => ispattern t = b) tlist ->
  (list_to_set (map ispattern tlist) : gset bool) = {[b]}.
Proof.
  intros Hne Hall. pose proof (Forall_ispattern_elem b tlist Hall) as Hnot.
  destruct (ispatterns_cases (map ispattern tlist))
    as [(Ht & Hf & _)|[(_ & _ & E)|[(_ & _ & E)|(Hnil & _)]]].
  - destruct b; contradiction.
  - rewrite E. destruct b; [reflexivity|]. exfalso. apply Hnot.
    assert (Hin : true ∈ (list_to_set (map ispattern tlist) : gset bool))
      by (rewrite E; set_solver).
    now apply elem_of_list_to_set in Hin.
  - rewrite E. destruct b; [|reflexivity]. exfalso. apply Hnot.
    assert (Hin : false ∈ (list_to_set (map ispattern tlist) : gset bool))
      by (rewrite E; set_solver).
    now apply elem_of_list_to_set in Hin.
  - destruct tlist; [contradiction|discriminate].
Qed.

(** C3. Let [tlist] be the resolved, wildcard-expanded target list of a
    [Rule], not empty, and [rule] the reference of the rule object the
    statement creates. When every target is a pattern, the statement puts
    one pattern rule in the store, appends its reference to the
    implicit-rule sequence and leaves the target table as it is. When no
    target is a pattern, the statement puts one rule in the store and
    attaches its reference to the table entry of every named target, once
    per occurrence, creating the entries that are missing; the first target
    is reported as a discovered goal, which the model records unless it has
    one. In both cases the rule becomes the current rule of the context. *)
Theorem Rule_execute_uniform (targetexp depexp : Expansion) (doublecolon : bool)
    (makefile : Makefile) (context : ExecutionContext) :
  let tlist := map Pattern_new
                 (_expandwildcards makefile
                    (splitwords (resolve targetexp makefile (variables makefile)))) in
  let deps := _expandwildcards makefile
                (splitwords (resolve depexp makefile (variables makefile))) in
  let rule := length (rulestore makefile) in
  tlist <> [] ->
  (Forall (fun t => ispattern t = true) tlist ->
     exists makefile',
       execute (Rule targetexp depexp doublecolon) makefile context
       = (Returned tt, makefile', mkContext (Some (RuleAt rule)))
       /\ rulestore makefile'
          = rulestore makefile
              ++ [PatternRuleObj tlist (map Pattern_new deps) doublecolon
                    (Expansion_loc targetexp) []]
       /\ implicitrules makefile' = implicitrules makefile ++ [rule]
       /\ targets makefile' = targets makefile)
  /\ (Forall (fun t => ispattern t = false) tlist ->
        exists makefile',
          execute (Rule targetexp depexp doublecolon) makefile context
          = (Returned tt, makefile', mkContext (Some (RuleAt rule)))
          /\ rulestore makefile'
             = rulestore makefile ++ [RuleObj deps doublecolon (Expansion_loc targetexp) []]
          /\ implicitrules makefile' = implicitrules makefile
          /\ (forall name,
                targets makefile' !! name
                = attached (occurrences name (map gettarget tlist)) (RuleRef rule)
                    (targets makefile !! name))
          /\ defaulttarget makefile'
             = match defaulttarget makefile with
               | Some goal => Some goal
               | None => head (map gettarget tlist)
               end).
Proof.
  intros tlist deps rule Hne.
  assert (Hexec : execute (Rule targetexp depexp doublecolon) makefile context
                  = Rule_execute targetexp depexp doublecolon makefile context) by reflexivity.
  unfold Rule_execute in Hexec. fold tlist in Hexec. fold deps in Hexec.
  destruct tlist as [|target0 tlist'] eqn:E; [contradiction|]. rewrite <- E in *.
  split; intros Hall.
  - eexists. split.
    + rewrite Hexec, (ispatterns_uniform true tlist Hne Hall). reflexivity.
    + repeat split.
  - rewrite (ispatterns_uniform false tlist Hne Hall) in Hexec.
    cbv beta iota zeta in Hexec.
    change (size ({[false]} : gset bool) =? 2)%nat with false in Hexec.
    change (elements ({[false]} : gset bool)) with [false] in Hexec.
    cbv beta iota zeta in Hexec. unfold new_rule in Hexec.
    rewrite fold_left_map_gettarget in Hexec.
    set (mk1 := set_rulestore _ makefile) in Hexec.
    pose proof (fold_addrule_frame (RuleRef (length (rulestore makefile)))
                  (map gettarget tlist) mk1) as (_ & _ & Himp & Hstore & Hgoal & _).
    eexists. split; [exact Hexec|].
    cbn [Makefile_foundtarget set_defaulttarget rulestore implicitrules targets defaulttarget].
    split; [exact Hstore|]. split; [exact Himp|]. split.
    + intros name. now rewrite fold_addrule_lookup.
    + rewrite Hgoal. cbn [mk1 set_rulestore defaulttarget].
      destruct (defaulttarget makefile); [reflexivity|].
      now rewrite E.
Qed.

Lemma has_rule_addrule_same (name : string) (rule : AttachedRule) (makefile : Makefile) :
  has_rule (Target_addrule name rule makefile) name rule.
Proof.
  unfold has_rule. rewrite Target_addrule_lookup.
  destruct (decide (name = name)); [|contradiction].
  eexists. split; [reflexivity|]. cbn. set_solver.
Qed.

Lemma has_rule_addrule_keep (n name : string) (rule rule' : AttachedRule) (makefile : Makefile) :
  has_rule makefile name rule -> has_rule (Target_addrule n rule' makefile) name rule.
Proof.
  intros (entry & Hentry & Hin). unfold has_rule.
  rewrite Target_addrule_lookup, Hentry.
  destruct (decide (n = name)); cbn.
  - eexists. split; [reflexivity|]. cbn. set_solver.
  - eauto.
Qed.

(** The loop over a prefix of targets that are explicit and match: it goes
    on with the rest of the targets, each target of the prefix holding its
    instance, and only the target table has changed. *)
Lemma StaticPatternRule_attach_app (loc : Location) (rule : nat) (pattern : Pattern)
    (pre rest : list string) (makefile : Makefile) :
  Forall (fun t => ispattern (Pattern_new t) = false) pre ->
  Forall (fun t => is_Some (Pattern_match pattern t)) pre ->
  exists makefile1,
    StaticPatternRule_attach loc rule pattern (pre ++ rest) makefile
    = StaticPatternRule_attach loc rule pattern rest makefile1
    /\ same_but_targets makefile1 makefile
    /\ (forall name r, has_rule makefile name r -> has_rule makefile1 name r)
    /\ (forall t stem, t ∈ pre -> Pattern_match pattern t = Some stem ->
          has_rule makefile1 t (PatternRuleInstance rule "" stem (ismatchany pattern))).
Proof.
  intros Hexp Hmatch. revert makefile.
  induction pre as [|t pre IH]; intros makefile.
  - exists makefile. repeat split; [auto | intros t stem Hin; set_solver].
  - apply Forall_cons in Hexp as [Ht Hexp]. apply Forall_cons in Hmatch as [[stem Hs] Hmatch].
    destruct (IH Hexp Hmatch
                (Target_addrule t (PatternRuleInstance rule "" stem (ismatchany pattern)) makefile))
      as (makefile1 & Hrun & Hframe & Hkeep & Hpre).
    exists makefile1. split; [|split; [|split]].
    + cbn [app StaticPatternRule_attach]. now rewrite Ht, Hs.
    + destruct Hframe as (?&?&?&?&?&?&?&?&?).
      destruct (Target_addrule_frame t (PatternRuleInstance rule "" stem (ismatchany pattern))
                  makefile) as (?&?&?&?&?&?&?&?&?).
      repeat split; congruence.
    + intros name r Hr. now apply Hkeep, has_rule_addrule_keep.
    + intros u stem' Hin Hu. apply elem_of_cons in Hin as [->|Hin].
      * apply Hkeep. rewrite Hs in Hu. injection Hu as <-. apply has_rule_addrule_same.
      * now apply Hpre.
Qed.

(** The loop over a prefix of accepted targets: it goes on with the rest of
    the targets, the entry of every name holding one instance for each of
    its occurrences in the prefix, and only the target table has changed. *)
Lemma StaticPatternRule_attach_accepted (loc : Location) (rule : nat) (pattern : Pattern)
    (pre rest : list string) (makefile : Makefile) :
  Forall (StaticPatternRule_accepts pattern) pre ->
  exists makefile1,
    StaticPatternRule_attach loc rule pattern (pre ++ rest) makefile
    = StaticPatternRule_attach loc rule pattern rest makefile1
    /\ same_but_targets makefile1 makefile
    /\ forall name,
         targets makefile1 !! name = StaticPatternRule_entry rule pattern pre makefile name.
Proof.
  intros Hpre. revert makefile.
  induction Hpre as [|t pre [Hexp [stem Hstem]] _ IH]; intros makefile.
  - exists makefile. split; [reflexivity|]. split; [repeat split|].
    intros name. unfold StaticPatternRule_entry.
    now destruct (Pattern_match pattern name).
  - cbn [app StaticPatternRule_attach]. rewrite Hexp, Hstem.
    set (mk_t := Target_addrule t _ makefile).
    destruct (IH mk_t) as (makefile1 & Hrun & Hsame & Htargets).
    exists makefile1. split; [exact Hrun|]. split.
    + unfold mk_t in Hsame. destruct Hsame as (?&?&?&?&?&?&?&?&?).
      destruct (Target_addrule_frame t (PatternRuleInstance rule "" stem (ismatchany pattern))
                  makefile) as (?&?&?&?&?&?&?&?&?).
      repeat split; congruence.
    + intros name. rewrite Htargets. unfold StaticPatternRule_entry, mk_t.
      rewrite Target_addrule_lookup, occurrences_cons.
      destruct (decide (t = name)) as [<-|Hne].
      * rewrite Hstem. unfold StaticPatternRule_instance. now rewrite attached_attached.
      * now destruct (Pattern_match pattern name).
Qed.

(** A list of targets is accepted as a whole, or splits at the first
    target that is not accepted. *)
Lemma StaticPatternRule_first_refused (pattern : Pattern) (l : list string) :
  Forall (StaticPatternRule_accepts pattern) l
  \/ exists pre t post,
       l = pre ++ t :: post
       /\ Forall (StaticPatternRule_accepts pattern) pre
       /\ (ispattern (Pattern_new t) = true
           \/ (ispattern (Pattern_new t) = false /\ Pattern_match pattern t = None)).
Proof.
  induction l as [|a l IH]; [left; constructor|].
  destruct (ispattern (Pattern_new a)) eqn:Ea.
  - right. exists [], a, l. split; [reflexivity|]. split; [constructor|now left].
  - destruct (Pattern_match pattern a) as [stem|] eqn:Em.
    + assert (Ha : StaticPatternRule_accepts pattern a) by (split; [exact Ea|now exists stem]).
      destruct IH as [Hall|(pre & t & post & -> & Hpre & Ht)].
      * left. now constructor.
      * right. exists (a :: pre), t, post. split; [reflexivity|]. split; [now constructor|exact Ht].
    + right. exists [], a, l. split; [reflexivity|]. split; [constructor|right; now split].
Qed.

(** C5 (as amended). Let the pattern expansion of a [StaticPatternRule]
    resolve to the one word [pattern0], let [tlist] be the resolved,
    wildcard-expanded target list and [rule] the reference of the shared
    pattern rule object the statement creates, an object with the one
    pattern, the prerequisites of the statement and no commands. The
    targets are taken in order, and the first target that is a pattern or
    does not match the pattern ends the statement; with no target at all
    nothing is created and a [DummyRule] becomes the current rule. Up to that target, each
    target gets one instance of [rule], with the stem of the target and the
    matches-any flag of the pattern, at the end of its table entry, once
    for each of its occurrences; no other entry changes. When all targets
    are accepted the statement returns, the first target is reported as a
    goal and [rule] is the current rule. When the first target that is not
    accepted is explicit and does not match, the statement raises, at the
    location of the target expansion, the definition error whose message
    names that target and the pattern; when it is a pattern, the error
    names the target as a pattern. In both cases the targets after it get
    nothing, no goal is reported and the context is as it was. *)
Theorem StaticPatternRule_execute_spec (targetexp patternexp depexp : Expansion)
    (doublecolon : bool) (makefile : Makefile) (context : ExecutionContext)
    (pattern0 : string) :
  let tlist := _expandwildcards makefile
                 (splitwords (resolve targetexp makefile (variables makefile))) in
  let pattern := Pattern_new pattern0 in
  let rule := length (rulestore makefile) in
  let deps := map Pattern_new
                (_expandwildcards makefile
                   (splitwords (resolve depexp makefile (variables makefile)))) in
  let object := PatternRuleObj [pattern] deps doublecolon (Expansion_loc targetexp) [] in
  let run := execute (StaticPatternRule targetexp patternexp depexp doublecolon)
               makefile context in
  let attached_to := fun (done : list string) (makefile' : Makefile) =>
    rulestore makefile' = rulestore makefile ++ [object]
    /\ (forall name,
          targets makefile' !! name = StaticPatternRule_entry rule pattern done makefile name)
    /\ variables makefile' = variables makefile
    /\ implicitrules makefile' = implicitrules makefile in
  splitwords (resolve patternexp makefile (variables makefile)) = [pattern0] ->
  (Forall (StaticPatternRule_accepts pattern) tlist ->
     match tlist with
     | [] => run = (Returned tt, makefile, mkContext (Some DummyRule))
     | _ =>
         exists makefile',
           run = (Returned tt, makefile', mkContext (Some (RuleAt rule)))
           /\ attached_to tlist makefile'
           /\ defaulttarget makefile'
              = match defaulttarget makefile with
                | Some goal => Some goal
                | None => head tlist
                end
     end)
  /\ (forall pre t post,
        tlist = pre ++ t :: post ->
        Forall (StaticPatternRule_accepts pattern) pre ->
        ispattern (Pattern_new t) = false ->
        Pattern_match pattern t = None ->
        exists makefile',
          run = (Raised (DataError (nomatch_message t pattern) (Expansion_loc targetexp)),
                 makefile', context)
          /\ attached_to pre makefile'
          /\ defaulttarget makefile' = defaulttarget makefile)
  /\ (forall pre t post,
        tlist = pre ++ t :: post ->
        Forall (StaticPatternRule_accepts pattern) pre ->
        ispattern (Pattern_new t) = true ->
        exists makefile',
          run = (Raised (DataError
                           ("Target '" +:+ t
                              +:+ "' of a static pattern rule must not be a pattern")
                           (Expansion_loc targetexp)),
                 makefile', context)
          /\ attached_to pre makefile'
          /\ defaulttarget makefile' = defaulttarget makefile)
  /\ (Forall (StaticPatternRule_accepts pattern) tlist
      \/ exists pre t post,
           tlist = pre ++ t :: post
           /\ Forall (StaticPatternRule_accepts pattern) pre
           /\ (ispattern (Pattern_new t) = true
               \/ (ispattern (Pattern_new t) = false /\ Pattern_match pattern t = None))).
Proof.
  intros tlist pattern rule deps object run attached_to Hpat.
  assert (Hrun : run = StaticPatternRule_execute targetexp patternexp depexp doublecolon
                         makefile context) by reflexivity.
  unfold StaticPatternRule_execute in Hrun. fold tlist in Hrun.
  rewrite Hpat in Hrun. fold pattern in Hrun. fold deps in Hrun.
  unfold new_rule in Hrun. fold rule in Hrun. fold object in Hrun.
  cbv beta iota zeta in Hrun.
  set (mk0 := set_rulestore _ makefile) in Hrun.
  assert (Hframe : forall done makefile1,
             same_but_targets makefile1 mk0 ->
             (forall name,
                targets makefile1 !! name = StaticPatternRule_entry rule pattern done mk0 name) ->
             attached_to done makefile1 /\ defaulttarget makefile1 = defaulttarget makefile).
  { intros done makefile1 (Hv & _ & Hi & Hs & Hd & _) Htargets.
    unfold attached_to. rewrite Hs, Hv, Hi, Hd. repeat split.
    intros name. rewrite Htargets. reflexivity. }
  split; [|split; [|split]].
  - intros Hall.
    destruct (StaticPatternRule_attach_accepted (Expansion_loc targetexp) rule pattern
                tlist [] mk0 Hall) as (mk1 & Happ & Hsame & Htargets).
    rewrite app_nil_r in Happ. cbn [StaticPatternRule_attach] in Happ.
    destruct (Hframe tlist mk1 Hsame Htargets) as [(Hs & Ht & Hv & Hi) Hd].
    destruct tlist as [|target0 tlist'] eqn:El; [exact Hrun|]. rewrite <- El in *.
    exists (Makefile_foundtarget target0 mk1). split.
    + rewrite Hrun, Happ. reflexivity.
    + cbn [Makefile_foundtarget set_defaulttarget rulestore targets variables implicitrules
             defaulttarget].
      split; [repeat split; assumption|].
      rewrite Hd, El. now destruct (defaulttarget makefile).
  - intros pre t post E Hpre Hexp Ht.
    destruct (StaticPatternRule_attach_accepted (Expansion_loc targetexp) rule pattern
                pre (t :: post) mk0 Hpre) as (mk1 & Happ & Hsame & Htargets).
    exists mk1. split; [|exact (Hframe pre mk1 Hsame Htargets)].
    rewrite Hrun. destruct tlist as [|target0 tlist'] eqn:El; [now destruct pre|].
    rewrite E, Happ. cbn [StaticPatternRule_attach]. now rewrite Hexp, Ht.
  - intros pre t post E Hpre Hexp.
    destruct (StaticPatternRule_attach_accepted (Expansion_loc targetexp) rule pattern
                pre (t :: post) mk0 Hpre) as (mk1 & Happ & Hsame & Htargets).
    exists mk1. split; [|exact (Hframe pre mk1 Hsame Htargets)].
    rewrite Hrun. destruct tlist as [|target0 tlist'] eqn:El; [now destruct pre|].
    rewrite E, Happ. cbn [StaticPatternRule_attach]. now rewrite Hexp.
  - apply StaticPatternRule_first_refused.
Qed.

Lemma startswith_drop (sep s : string) :
  PyStr.startswith sep s = true -> s = sep +:+ PyStr.drop (String.length sep) s.
Proof.
  revert s. induction sep as [|a sep IH]; intros s Hs.
  - reflexivity.
  - destruct s as [|b s]; [discriminate|]. cbn in Hs |- *.
    destruct (Ascii.eqb a b) eqn:E; [|discriminate].
    apply Ascii.eqb_eq in E as ->.
    change (String b s = String b (sep +:+ PyStr.drop (String.length sep) s)).
    f_equal. now apply IH.
Qed.

(** [find_split] cuts the text at an occurrence of the separator. *)
Lemma find_split_join (sep s before after : string) :
  PyStr.find_split sep s = Some (before, after) -> s = before +:+ sep +:+ after.
Proof.
  revert before. induction s as [|c s IH]; intros before Hf.
  - cbn in Hf. destruct (PyStr.startswith sep "") eqn:E; [|discriminate].
    injection Hf as <- <-. now apply startswith_drop.
  - cbn [PyStr.find_split] in Hf.
    destruct (PyStr.startswith sep (String c s)) eqn:E.
    + injection Hf as <- <-. now apply startswith_drop.
    + destruct (PyStr.find_split sep s) as [[b a]|]; [|discriminate].
      injection Hf as <- <-.
      change (String c s = String c (b +:+ sep +:+ a)). f_equal. now apply IH.
Qed.

(** One turn of the loop of [parsecommandlineargs] adds the statements of
    section 4.2 for the argument, or the argument to the residual list. *)
Lemma parsecommandlineargs_from_spec (args : list string) (i : Z)
    (stmts : list Statement) (r : list string) :
  parsecommandlineargs_from i args stmts r
  = (stmts ++ concat (imap (fun k a => commandline_statements (i + Z.of_nat k) a) args),
     r ++ filter (fun a => split_assignment a = None) args).
Proof.
  revert i stmts r. induction args as [|a args IH]; intros i stmts r.
  - cbn. now rewrite !app_nil_r.
  - cbn [parsecommandlineargs_from imap concat]. rewrite filter_cons.
    rewrite (imap_ext _ (fun k a => commandline_statements (i + 1 + Z.of_nat k) a))
      by (intros k x _; cbn; f_equal; lia).
    unfold commandline_statements at 1, split_assignment, PyStr.partition.
    rewrite Z.add_0_r.
    destruct (PyStr.find_split ":=" a) as [[before after]|].
    + cbn [String.eqb negb SetVariable_init default from_option id].
      rewrite IH. destruct (decide _) as [Hd|_]; [discriminate Hd|].
      now rewrite <- !app_assoc.
    + cbn [String.eqb]. destruct (PyStr.find_split "=" a) as [[before after]|].
      * cbn [String.eqb negb SetVariable_init default from_option id].
        rewrite IH. destruct (decide _) as [Hd|_]; [discriminate Hd|].
        now rewrite <- !app_assoc.
      * cbn [String.eqb negb]. rewrite IH. destruct (decide _) as [_|Hd]; [|contradiction].
        cbn [concat app]. now rewrite <- app_assoc.
Qed.

Lemma len_nonempty (s : string) : s <> "" -> (PyStr.len s =? 0) = false.
Proof.
  intros Hs. destruct s as [|c s]; [contradiction|].
  apply Z.eqb_neq. unfold PyStr.len. cbn [String.length]. lia.
Qed.

(** A [set] that no binding outranks stores the binding and touches no
    other name. *)
Lemma Variables_set_lookup (self : Variables) (name : string) (flavor : Flavor)
    (source : Source) (value : string) :
  (forall f prevsource old,
     self !! name = Some (f, prevsource, old) -> outranks prevsource source = false) ->
  Variables_set self name flavor source value !! name = Some (flavor, source, value)
  /\ forall other, other <> name ->
       Variables_set self name flavor source value !! other = self !! other.
Proof.
  intros Hrank. unfold Variables_set.
  destruct (self !! name) as [[[f prevsource] old]|] eqn:E.
  - rewrite (Hrank f prevsource old eq_refl).
    split; [apply lookup_insert_eq | intros other Hne; now apply lookup_insert_ne].
  - split; [apply lookup_insert_eq | intros other Hne; now apply lookup_insert_ne].
Qed.


(** A global assignment with one of the operators [=] and [:=] is one
    [set] on the global scope. *)
Lemma SetVariable_execute_global (vnameexp : Expansion) (token value : string)
    (valueloc : Location) (source : Source) (makefile : Makefile)
    (context : ExecutionContext) :
  resolve vnameexp makefile (variables makefile) <> "" ->
  execute (SetVariable vnameexp token value valueloc None source) makefile context
  = let '(r, makefile') :=
      SetVariable_assign (resolve vnameexp makefile (variables makefile)) token value
        valueloc source GlobalScope makefile in
    (r, makefile', context).
Proof.
  intros Hname. cbn [execute]. unfold SetVariable_execute.
  rewrite (len_nonempty _ Hname). cbn [SetVariable_loop].
  destruct (SetVariable_assign _ token value valueloc source GlobalScope makefile)
    as [[[]|e] makefile']; reflexivity.
Qed.









End Properties.
Lemma fold_charlocation_notab (l : list ascii) (c : Z) :
  ~ In tab l -> fold_left _charlocation l c = c + Z.of_nat (length l).
Proof.
  revert c; induction l as [|a l IH]; intros c Hl.
  - cbn. lia.
  - cbn [fold_left length].
    rewrite IH by (intros Hin; apply Hl; now right).
    unfold _charlocation.
    destruct (Ascii.eqb a tab) eqn:E.
    + apply Ascii.eqb_eq in E. exfalso. apply Hl. now left.
    + cbn [negb]. lia.
Qed.

Lemma chars_length (s : string) : length (PyStr.chars s) = String.length s.
Proof. induction s; cbn; congruence. Qed.

(** C9. Advancing a location by a text without tabs adds the length of the
    text to the column and keeps the path and the line. *)
Theorem Location_add_notabs (loc : Location) (s : string) :
  notabs s ->
  column (Location_add loc s) = column loc + PyStr.len s
  /\ path (Location_add loc s) = path loc
  /\ line (Location_add loc s) = line loc.
Proof.
  intros Hs. unfold Location_add.
  rewrite (fold_charlocation_notab _ _ Hs), chars_length.
  fold (PyStr.len s).
  destruct (column loc + PyStr.len s =? column loc) eqn:E.
  - apply Z.eqb_eq in E. repeat split. lia.
  - now cbn.
Qed.

Lemma Location_add_notabs_witness :
  notabs "CC=gcc"
  /\ column (Location_add (mkLocation "Makefile" 3 5) "CC=gcc") = 5 + PyStr.len "CC=gcc".
Proof.
  assert (H : notabs "CC=gcc").
  { unfold notabs. cbn. intros Hin.
    repeat (destruct Hin as [Hin|Hin]; [discriminate Hin|]). exact Hin. }
  split; [exact H|].
  exact (proj1 (Location_add_notabs (mkLocation "Makefile" 3 5) "CC=gcc" H)).
Defined.

(* ===================================================================== *)
(** ** More on locations *)
(* ===================================================================== *)

Lemma chars_append (s1 s2 : string) :
  PyStr.chars (s1 +:+ s2) = PyStr.chars s1 ++ PyStr.chars s2.
Proof.
  induction s1 as [|c s1 IH]; [reflexivity|].
  change (String c s1 +:+ s2) with (String c (s1 +:+ s2)). cbn. now rewrite IH.
Qed.

(** Whichever branch [__add__] takes, the result has the path and the line
    of the location and the column computed by the fold. *)
Lemma Location_add_fields (loc : Location) (s : string) :
  Location_add loc s
  = mkLocation (path loc) (line loc)
      (fold_left _charlocation (PyStr.chars s) (column loc)).
Proof.
  unfold Location_add.
  destruct (fold_left _charlocation (PyStr.chars s) (column loc) =? column loc) eqn:E;
    [|reflexivity].
  apply Z.eqb_eq in E. rewrite E. now destruct loc.
Qed.

(** X1. Advancing by a text in two pieces is advancing by the whole text:
    [(loc + s1) + s2 = loc + (s1 + s2)]. *)
Theorem Location_add_append (loc : Location) (s1 s2 : string) :
  Location_add (Location_add loc s1) s2 = Location_add loc (s1 +:+ s2).
Proof.
  rewrite !Location_add_fields. cbn [path line column].
  now rewrite chars_append, fold_left_app.
Qed.

(** X2. A tab takes the column to the least multiple of the tab width that
    is greater than the column, whatever the column is. *)
Theorem Location_add_tab_next_stop (loc : Location) :
  let c := column (Location_add loc (String tab "")) in
  c mod _tabwidth = 0
  /\ column loc < c
  /\ forall m, m mod _tabwidth = 0 -> column loc < m -> c <= m.
Proof.
  rewrite Location_add_fields. cbn [column PyStr.chars fold_left].
  unfold _charlocation, _tabwidth. rewrite Ascii.eqb_refl. cbn [negb].
  pose proof (Z.mod_pos_bound (column loc) 4 ltac:(lia)) as Hb.
  pose proof (Z.div_mod (column loc) 4 ltac:(lia)) as Hd.
  repeat split.
  - replace (column loc + 4 - column loc mod 4) with ((column loc / 4 + 1) * 4) by lia.
    apply Z.mod_mul. lia.
  - lia.
  - intros m Hm Hlt.
    pose proof (Z.div_mod m 4 ltac:(lia)) as Hdm. rewrite Hm in Hdm.
    assert (column loc / 4 < m / 4) by lia. lia.
Qed.

Lemma fold_charlocation_bounds (l : list ascii) (c : Z) :
  c + Z.of_nat (length l) <= fold_left _charlocation l c <= c + 4 * Z.of_nat (length l).
Proof.
  revert c. induction l as [|a l IH]; intros c.
  - cbn. lia.
  - cbn [fold_left length]. specialize (IH (_charlocation c a)).
    assert (c + 1 <= _charlocation c a <= c + 4).
    { unfold _charlocation, _tabwidth. destruct (negb (Ascii.eqb a tab)); [lia|].
      pose proof (Z.mod_pos_bound c 4 ltac:(lia)). lia. }
    lia.
Qed.

(** X3. For every text, tabs or not, advancing keeps the path and the line,
    moves the column forward by at least the length of the text and by at
    most four times the length; advancing by the empty text gives the
    location back. *)
Theorem Location_add_bounds (loc : Location) (s : string) :
  path (Location_add loc s) = path loc
  /\ line (Location_add loc s) = line loc
  /\ column loc + PyStr.len s <= column (Location_add loc s)
     <= column loc + _tabwidth * PyStr.len s
  /\ Location_add loc "" = loc.
Proof.
  rewrite Location_add_fields. cbn [path line column].
  repeat split.
  - unfold PyStr.len. rewrite <- chars_length. apply fold_charlocation_bounds.
  - unfold PyStr.len, _tabwidth. rewrite <- chars_length. apply fold_charlocation_bounds.
  - unfold Location_add. cbn. now rewrite Z.eqb_refl.
Qed.

(* ===================================================================== *)
(** ** More properties of the engine *)
(* ===================================================================== *)

Section MoreProperties.
Context `{Collaborators}.

Lemma startswith_append (sep x y : string) :
  PyStr.startswith sep x = true -> PyStr.startswith sep (x +:+ y) = true.
Proof.
  revert x. induction sep as [|a sep IH]; intros x Hx; [reflexivity|].
  destruct x as [|b x]; [discriminate|].
  change (String b x +:+ y) with (String b (x +:+ y)). cbn in Hx |- *.
  destruct (Ascii.eqb a b); [now apply IH|discriminate].
Qed.

(** [find_split] cuts at the first occurrence: the separator does not occur
    in the text before the cut. *)
Lemma find_split_first (sep s before after : string) :
  sep <> "" ->
  PyStr.find_split sep s = Some (before, after) ->
  PyStr.find_split sep before = None.
Proof.
  intros Hsep. revert before. induction s as [|c s IH]; intros before Hf.
  - cbn in Hf. destruct (PyStr.startswith sep "") eqn:E; [|discriminate].
    destruct sep; [contradiction|discriminate].
  - cbn [PyStr.find_split] in Hf.
    destruct (PyStr.startswith sep (String c s)) eqn:E.
    + injection Hf as <- <-. destruct sep; [contradiction|reflexivity].
    + destruct (PyStr.find_split sep s) as [[b a]|] eqn:Es; [|discriminate].
      injection Hf as <- <-. cbn [PyStr.find_split].
      destruct (PyStr.startswith sep (String c b)) eqn:Eb.
      * apply (startswith_append _ _ (sep +:+ a)) in Eb.
        change (String c b +:+ sep +:+ a) with (String c (b +:+ sep +:+ a)) in Eb.
        rewrite <- (find_split_join _ _ _ _ Es) in Eb. congruence.
      * now rewrite (IH b eq_refl).
Qed.

(** A text splits on [=] exactly when it has the character. *)
Lemma find_split_equals (s : string) :
  PyStr.find_split "=" s = None <-> equals_sign ∉ PyStr.chars s.
Proof.
  induction s as [|c s IH].
  - cbn. split; [intros _; set_solver|reflexivity].
  - cbn [PyStr.find_split PyStr.startswith PyStr.chars].
    destruct (Ascii.eqb "=" c) eqn:E.
    + apply Ascii.eqb_eq in E as <-. split; [discriminate|].
      intros Hn. exfalso. apply Hn. left.
    + apply Ascii.eqb_neq in E.
      destruct (PyStr.find_split "=" s) as [[b a]|].
      * split; [discriminate|]. intros Hn. exfalso.
        assert (Hs : equals_sign ∉ PyStr.chars s)
          by (intros Hin; apply Hn; now right).
        apply IH in Hs. discriminate.
      * split; [|reflexivity]. intros _ Hin.
        apply elem_of_cons in Hin as [Hin|Hin]; [now apply E|].
        now apply (proj1 IH eq_refl).
Qed.

(** An argument does not split exactly when it has no [=]. *)
Lemma split_assignment_None (a : string) :
  split_assignment a = None <-> equals_sign ∉ PyStr.chars a.
Proof.
  unfold split_assignment.
  destruct (PyStr.find_split ":=" a) as [[before after]|] eqn:E1.
  - split; [discriminate|]. intros Hn. exfalso. apply Hn.
    rewrite (find_split_join _ _ _ _ E1), !chars_append.
    apply elem_of_app. right. apply elem_of_app. left. cbn. set_solver.
  - rewrite <- find_split_equals.
    destruct (PyStr.find_split "=" a) as [[before after]|]; split; congruence.
Qed.

Lemma commandline_statements_overrides (i : Z) (a : string) :
  omap override_argument (commandline_statements i a)
  = (if decide (equals_sign ∉ PyStr.chars a) then [] else [a])
  /\ length (commandline_statements i a)
     = (if decide (equals_sign ∉ PyStr.chars a) then 0 else 2)%nat.
Proof.
  unfold commandline_statements.
  destruct (split_assignment a) as [[[before t] after]|] eqn:E.
  - destruct (decide _) as [Hn|_]; [|split; reflexivity].
    apply split_assignment_None in Hn. congruence.
  - destruct (decide _) as [_|Hn]; [split; reflexivity|].
    exfalso. apply Hn. now apply split_assignment_None.
Qed.

Lemma commandline_statements_all (args : list string) (i : Z) :
  let stmts := concat (imap (fun k a => commandline_statements (i + Z.of_nat k) a) args) in
  omap override_argument stmts = filter (fun a => equals_sign ∈ PyStr.chars a) args
  /\ length stmts = (2 * length (filter (fun a => equals_sign ∈ PyStr.chars a) args))%nat.
Proof.
  revert i. induction args as [|a args IH]; intros i; [split; reflexivity|].
  cbn zeta in IH |- *.
  cbn [imap concat]. rewrite omap_app, length_app, !filter_cons.
  rewrite (imap_ext _ (fun k a => commandline_statements (i + 1 + Z.of_nat k) a))
    by (intros k x _; cbn; f_equal; lia).
  destruct (IH (i + 1)) as [IH1 IH2]. rewrite IH1, IH2.
  destruct (commandline_statements_overrides (i + Z.of_nat 0) a) as [-> ->].
  cbv beta.
  destruct (decide (equals_sign ∈ PyStr.chars a)) as [Hin|Hn];
    destruct (decide (equals_sign ∉ PyStr.chars a)) as [Hn'|Hin'];
    try contradiction; try (exfalso; tauto); split; try reflexivity.
  cbn [length]. lia.
Qed.

(** X4. The residual list of [parsecommandlineargs] is, in order, the
    arguments without the character [=]; the statements come in pairs, one
    pair for each argument with the character, and their [Override]
    statements carry, in order, exactly those arguments. *)
Theorem parsecommandlineargs_partition (args : list string) :
  (parsecommandlineargs args).2 = filter (fun a => equals_sign ∉ PyStr.chars a) args
  /\ omap override_argument (parsecommandlineargs args).1
     = filter (fun a => equals_sign ∈ PyStr.chars a) args
  /\ length (parsecommandlineargs args).1
     = (2 * length (filter (fun a => equals_sign ∈ PyStr.chars a) args))%nat.
Proof.
  unfold parsecommandlineargs. rewrite parsecommandlineargs_from_spec. cbn [fst snd app].
  split; [|].
  - apply list_filter_iff. intros a. apply split_assignment_None.
  - apply (commandline_statements_all args 0).
Qed.

(** X5. An argument that splits gives its two statements and no residual,
    and is cut at the first occurrence of its separator: the argument is
    the left-hand side, the separator and the right-hand side put together,
    and the separator does not occur in the left-hand side. The separator is [=] only when [:=] occurs nowhere in the
    argument; a left-hand side cut at [:=] may itself contain [=]. *)
Theorem split_assignment_first (a before t after : string) :
  split_assignment a = Some (before, t, after) ->
  parsecommandlineargs [a]
  = ([Override a;
      SetVariable (Expansion_fromstring (PyStr.strip before)) t after
        (mkLocation "<command-line>" 0 (PyStr.len (PyStr.strip before) + PyStr.len t))
        None SOURCE_COMMANDLINE],
     [])
  /\ a = before +:+ t +:+ after
  /\ PyStr.find_split t before = None
  /\ ((t = ":=" /\ PyStr.find_split ":=" a = Some (before, after))
      \/ (t = "=" /\ PyStr.find_split ":=" a = None /\ equals_sign ∉ PyStr.chars before)).
Proof.
  intros Hs. split.
  { unfold parsecommandlineargs. rewrite parsecommandlineargs_from_spec.
    cbn [imap concat app filter]. unfold commandline_statements. rewrite Hs.
    rewrite filter_cons, decide_False by congruence. reflexivity. }
  revert Hs. unfold split_assignment. intros Hs.
  destruct (PyStr.find_split ":=" a) as [[b1 a1]|] eqn:E1.
  - injection Hs as <- <- <-.
    split; [now apply find_split_join|]. split; [|now left].
    now apply (find_split_first ":=" a b1 a1).
  - destruct (PyStr.find_split "=" a) as [[b2 a2]|] eqn:E2; [|discriminate].
    injection Hs as <- <- <-.
    assert (Hfirst : PyStr.find_split "=" b2 = None)
      by now apply (find_split_first "=" a b2 a2).
    split; [now apply find_split_join|]. split; [exact Hfirst|]. right.
    repeat split. now apply find_split_equals.
Qed.

Lemma append_cons (c : ascii) (x y : string) : String c x +:+ y = String c (x +:+ y).
Proof. reflexivity. Qed.

Lemma append_nil (y : string) : "" +:+ y = y.
Proof. reflexivity. Qed.

Lemma occurs_cons (sep : string) (c : ascii) (s : string) :
  occurs sep s -> occurs sep (String c s).
Proof. intros (x & y & ->). now exists (String c x), y. Qed.

Lemma startswith_self (sep after : string) : PyStr.startswith sep (sep +:+ after) = true.
Proof.
  induction sep as [|c sep IH]; [reflexivity|].
  rewrite append_cons. cbn [PyStr.startswith]. now rewrite Ascii.eqb_refl.
Qed.

Lemma find_split_unfold (sep s : string) :
  PyStr.find_split sep s
  = if PyStr.startswith sep s then Some ("", PyStr.drop (String.length sep) s)
    else match s with
         | "" => None
         | String c r =>
             match PyStr.find_split sep r with
             | Some (before, after) => Some (String c before, after)
             | None => None
             end
         end.
Proof. now destruct s. Qed.

(** A text in which the separator occurs is split by [find_split]. *)
Lemma find_split_occurs (sep s : string) : occurs sep s -> PyStr.find_split sep s <> None.
Proof.
  intros (before & after & ->). induction before as [|c before IH].
  - rewrite append_nil, find_split_unfold, startswith_self. discriminate.
  - rewrite append_cons, find_split_unfold.
    destruct (PyStr.startswith sep _); [discriminate|].
    now destruct (PyStr.find_split sep (before +:+ sep +:+ after)) as [[b a]|].
Qed.

Lemma not_occurs_find_split (sep s : string) :
  ~ occurs sep s -> PyStr.find_split sep s = None.
Proof.
  intros Hn. destruct (PyStr.find_split sep s) as [[before after]|] eqn:E; [|reflexivity].
  destruct Hn. exists before, after. now apply find_split_join.
Qed.

(** The cut at [:=] is at its first occurrence. *)
Lemma find_split_assign_first (before after : string) :
  ~ occurs ":=" before ->
  PyStr.find_split ":=" (before +:+ ":=" +:+ after) = Some (before, after).
Proof.
  induction before as [|c before IH]; intros Hn; [reflexivity|].
  rewrite append_cons. cbn [PyStr.find_split].
  assert (Hstart : PyStr.startswith ":=" (String c (before +:+ ":=" +:+ after)) = false).
  { cbn [PyStr.startswith]. destruct (Ascii.eqb ":" c) eqn:Ec; [|reflexivity].
    apply Ascii.eqb_eq in Ec as <-.
    destruct before as [|d before]; [reflexivity|].
    rewrite append_cons. cbn [PyStr.startswith].
    destruct (Ascii.eqb "=" d) eqn:Ed; [|reflexivity].
    apply Ascii.eqb_eq in Ed as <-. destruct Hn. now exists "", before. }
  rewrite Hstart, IH; [reflexivity|].
  intros Ho. apply Hn. now apply occurs_cons.
Qed.

(** The cut at [=] is at its first occurrence. *)
Lemma find_split_equals_first (before after : string) :
  equals_sign ∉ PyStr.chars before ->
  PyStr.find_split "=" (before +:+ "=" +:+ after) = Some (before, after).
Proof.
  induction before as [|c before IH]; intros Hn; [reflexivity|].
  rewrite append_cons. cbn [PyStr.find_split PyStr.startswith].
  destruct (Ascii.eqb "=" c) eqn:Ec.
  - apply Ascii.eqb_eq in Ec as <-. destruct Hn. left.
  - rewrite IH; [reflexivity|]. intros Hin. apply Hn. now right.
Qed.

Lemma lstrip_split (s : string) :
  exists l, s = l +:+ PyStr.lstrip s /\ all_space l
            /\ forall c t', PyStr.lstrip s = String c t' -> PyStr.isspace c = false.
Proof.
  induction s as [|c s (l & Hs & Hl & Hhead)]; cbn [PyStr.lstrip].
  - exists "". split; [reflexivity|]. split; [constructor|discriminate].
  - destruct (PyStr.isspace c) eqn:Ec.
    + exists (String c l). rewrite append_cons. split; [now f_equal|].
      split; [now constructor|exact Hhead].
    + exists "". split; [reflexivity|]. split; [constructor|].
      now intros c' t' [= <- _].
Qed.

Lemma rstrip_split (x : string) :
  exists r, x = PyStr.rstrip x +:+ r /\ all_space r
            /\ (forall t' d, PyStr.rstrip x = t' +:+ String d "" -> PyStr.isspace d = false)
            /\ (forall c t', PyStr.rstrip x = String c t' -> exists x', x = String c x').
Proof.
  induction x as [|c x (r & Hx & Hr & Hlast & Hfirst)]; cbn [PyStr.rstrip].
  - exists "". split; [reflexivity|]. split; [constructor|]. split; [|discriminate].
    intros [|a t'] d; rewrite ?append_cons, ?append_nil; discriminate.
  - destruct (PyStr.rstrip x) as [|e x'] eqn:E.
    + rewrite append_nil in Hx. destruct (PyStr.isspace c) eqn:Ec.
      * exists (String c x). split; [reflexivity|]. split.
        -- constructor; [exact Ec|]. rewrite Hx. exact Hr.
        -- split; [|discriminate].
           intros [|a t'] d; rewrite ?append_cons, ?append_nil; discriminate.
      * exists x. split; [reflexivity|]. split; [rewrite Hx; exact Hr|]. split.
        -- intros [|a t'] d; rewrite ?append_cons, ?append_nil.
           ++ now intros [= <-].
           ++ intros [= _ Ht]. destruct t'; rewrite ?append_cons, ?append_nil in Ht;
                discriminate.
        -- intros c' t' [= <- _]. now exists x.
    + exists r. rewrite append_cons. split; [now f_equal|]. split; [exact Hr|]. split.
      * intros [|a t'] d; rewrite ?append_cons, ?append_nil.
        -- discriminate.
        -- intros [= _ Ht]. exact (Hlast t' d Ht).
      * intros c' t' [= <- _]. now eexists.
Qed.

(** [strip] removes the white space at both ends and nothing else. *)
Lemma strip_is_trim (s : string) : is_trim s (PyStr.strip s).
Proof.
  unfold PyStr.strip.
  destruct (lstrip_split s) as (l & Hs & Hl & Hhead).
  destruct (rstrip_split (PyStr.lstrip s)) as (r & Hx & Hr & Hlast & Hfirst).
  exists l, r. split; [now rewrite <- Hx|]. split; [exact Hl|]. split; [exact Hr|].
  split; [|exact Hlast].
  intros c t' Ht. destruct (Hfirst c t' Ht) as [x' Hx']. exact (Hhead c x' Hx').
Qed.

(** C8. For every argument list, the residual list of
    [parsecommandlineargs] is, in order, the arguments without the
    character [=], unchanged, and its statements are, in the order of the
    arguments, the statements of each argument with its index. An argument
    in which [:=] occurs is cut at the first [:=]; an argument in which
    [:=] does not occur and [=] does is cut at the first [=]; every
    argument with the character [=] is in one of the two cases. The
    statements of an argument that is cut are an [Override] with the raw
    argument and then a [SetVariable] whose name is the left-hand side
    without the white space at its ends, whose operator is the separator
    at the cut, whose value is the right-hand side as it is, whose
    location is the argument's index with the lengths of the name and of
    the separator, without target expansion and with the command line as
    source. An argument without [=] has no statement. *)
Theorem parsecommandlineargs_spec (args : list string) :
  (parsecommandlineargs args).2 = filter (fun a => equals_sign ∉ PyStr.chars a) args
  /\ (parsecommandlineargs args).1
     = concat (imap (fun i a => commandline_statements (Z.of_nat i) a) args)
  /\ forall (i : Z) (a : string),
       (forall before after,
          a = before +:+ ":=" +:+ after -> ~ occurs ":=" before ->
          exists name,
            is_trim before name
            /\ commandline_statements i a
               = [Override a;
                  SetVariable (Expansion_fromstring name) ":=" after
                    (mkLocation "<command-line>" i (PyStr.len name + 2))
                    None SOURCE_COMMANDLINE])
       /\ (forall before after,
             ~ occurs ":=" a ->
             a = before +:+ "=" +:+ after -> equals_sign ∉ PyStr.chars before ->
             exists name,
               is_trim before name
               /\ commandline_statements i a
                  = [Override a;
                     SetVariable (Expansion_fromstring name) "=" after
                       (mkLocation "<command-line>" i (PyStr.len name + 1))
                       None SOURCE_COMMANDLINE])
       /\ (equals_sign ∉ PyStr.chars a -> commandline_statements i a = [])
       /\ (occurs ":=" a ->
           exists before after, a = before +:+ ":=" +:+ after /\ ~ occurs ":=" before)
       /\ (equals_sign ∈ PyStr.chars a ->
           exists before after,
             a = before +:+ "=" +:+ after /\ equals_sign ∉ PyStr.chars before).
Proof.
  unfold parsecommandlineargs. rewrite parsecommandlineargs_from_spec. cbn [fst snd app].
  split; [|split; [reflexivity|]].
  { apply list_filter_iff. intros a. apply split_assignment_None. }
  intros i a. split; [|split; [|split; [|split]]].
  - intros before after -> Hn. exists (PyStr.strip before).
    split; [apply strip_is_trim|].
    unfold commandline_statements, split_assignment.
    now rewrite (find_split_assign_first before after Hn).
  - intros before after Hno -> Hn. exists (PyStr.strip before).
    split; [apply strip_is_trim|].
    unfold commandline_statements, split_assignment.
    now rewrite (not_occurs_find_split _ _ Hno), (find_split_equals_first before after Hn).
  - intros Hn. unfold commandline_statements.
    now rewrite (proj2 (split_assignment_None a) Hn).
  - intros Ho. destruct (PyStr.find_split ":=" a) as [[before after]|] eqn:E.
    + exists before, after. split; [now apply find_split_join|].
      intros Hb. apply (find_split_occurs ":=" before Hb).
      now apply (find_split_first ":=" a before after).
    + now destruct (find_split_occurs ":=" a Ho).
  - intros Hin. destruct (PyStr.find_split "=" a) as [[before after]|] eqn:E.
    + exists before, after. split; [now apply find_split_join|].
      apply find_split_equals. now apply (find_split_first "=" a before after).
    + apply find_split_equals in E. contradiction.
Qed.

(** X6. The errors of [SetVariable.execute]. A name that resolves to the
    empty text is a definition error at the location of the name, whatever
    the operator and the targets are, and nothing has changed. An operator
    that is none of [+=], [?=], [=] and [:=] fails the assertion when the
    assignment is global; when the target expansion resolves to no word at
    all there is no scope to visit, the operator is never looked at, and the
    statement returns with the model as it was. *)
Theorem SetVariable_execute_errors (vnameexp : Expansion) (token value : string)
    (valueloc : Location) (source : Source) (makefile : Makefile)
    (context : ExecutionContext) :
  (forall targetexp,
     resolve vnameexp makefile (variables makefile) = "" ->
     execute (SetVariable vnameexp token value valueloc targetexp source) makefile context
     = (Raised (DataError "Empty variable name" (Expansion_loc vnameexp)), makefile, context))
  /\ (resolve vnameexp makefile (variables makefile) <> "" ->
      token <> "+=" -> token <> "?=" -> token <> "=" -> token <> ":=" ->
      execute (SetVariable vnameexp token value valueloc None source) makefile context
      = (Raised AssertionError, makefile, context))
  /\ (forall targetexp,
        resolve vnameexp makefile (variables makefile) <> "" ->
        splitwords (resolve targetexp makefile (variables makefile)) = [] ->
        execute (SetVariable vnameexp token value valueloc (Some targetexp) source)
          makefile context
        = (Returned tt, makefile, context)).
Proof.
  split; [|split].
  - intros targetexp Hname. cbn [execute]. unfold SetVariable_execute. now rewrite Hname.
  - intros Hname H1 H2 H3 H4. rewrite (SetVariable_execute_global _ _ _ _ _ _ _ Hname).
    unfold SetVariable_assign.
    rewrite (proj2 (String.eqb_neq _ _) H1), (proj2 (String.eqb_neq _ _) H2),
      (proj2 (String.eqb_neq _ _) H3), (proj2 (String.eqb_neq _ _) H4).
    reflexivity.
  - intros targetexp Hname Hwords. cbn [execute]. unfold SetVariable_execute.
    rewrite (len_nonempty _ Hname), Hwords. reflexivity.
Qed.

(** X7. The operator [?=] on the global scope: when the scope binds the
    name, with whatever flavor and from whatever source, the statement
    changes nothing; when it does not, the statement does what [=] does. *)
Theorem SetVariable_execute_default (vnameexp : Expansion) (value : string)
    (valueloc : Location) (source : Source) (makefile : Makefile)
    (context : ExecutionContext) :
  let vname := resolve vnameexp makefile (variables makefile) in
  vname <> "" ->
  (is_Some (variables makefile !! vname) ->
     execute (SetVariable vnameexp "?=" value valueloc None source) makefile context
     = (Returned tt, makefile, context))
  /\ (variables makefile !! vname = None ->
        execute (SetVariable vnameexp "?=" value valueloc None source) makefile context
        = execute (SetVariable vnameexp "=" value valueloc None source) makefile context
        /\ exists makefile',
             execute (SetVariable vnameexp "?=" value valueloc None source) makefile context
             = (Returned tt, makefile', context)
             /\ variables makefile' = <[vname := (FLAVOR_RECURSIVE, source, value)]>
                                        (variables makefile)).
Proof.
  intros vname Hname.
  rewrite !(SetVariable_execute_global _ _ _ _ _ _ _ Hname). fold vname.
  unfold SetVariable_assign, Variables_get. cbn [String.eqb Ascii.eqb Bool.eqb Scope_get].
  split.
  - intros [[[f s] old] Hb]. now rewrite Hb.
  - intros Hn. rewrite Hn. split; [reflexivity|].
    eexists. split; [reflexivity|]. cbn. unfold Variables_set. now rewrite Hn.
Qed.

(** X8. The negated forms are the negations: an equality or definedness
    condition with the opposite [expected] evaluates to the opposite
    boolean on every model; an equality condition between an expansion and
    itself evaluates to [expected]; an else-condition is true. *)
Theorem Condition_evaluate_polarity (makefile : Makefile) :
  (forall exp1 exp2 expected,
     Condition_evaluate (EqCondition exp1 exp2 (negb expected)) makefile
     = negb (Condition_evaluate (EqCondition exp1 exp2 expected) makefile))
  /\ (forall exp expected,
        Condition_evaluate (IfdefCondition exp (negb expected)) makefile
        = negb (Condition_evaluate (IfdefCondition exp expected) makefile))
  /\ (forall exp expected,
        Condition_evaluate (EqCondition exp exp expected) makefile = expected)
  /\ Condition_evaluate ElseCondition makefile = true.
Proof.
  repeat split.
  - intros exp1 exp2 expected. cbn.
    now destruct (String.eqb _ _), expected.
  - intros exp expected. cbn. destruct (Variables_get _ _) as [[f s] [v|]].
    + now destruct (0 <? PyStr.len v), expected.
    + now destruct expected.
  - intros exp expected. cbn. rewrite String.eqb_refl. now destruct expected.
Qed.

Lemma ConditionBlock_append_conditions (groups : list (Condition * list Statement))
    (s : Statement) :
  map fst (ConditionBlock_append groups s) = map fst groups.
Proof.
  induction groups as [|[c statements] groups IH]; [reflexivity|].
  destruct groups as [|g groups]; [reflexivity|].
  change (ConditionBlock_append ((c, statements) :: g :: groups) s)
    with ((c, statements) :: ConditionBlock_append (g :: groups) s).
  cbn [map]. now rewrite IH.
Qed.

Lemma last_map_fst (groups : list (Condition * list Statement)) :
  last (map fst groups) = fst <$> last groups.
Proof.
  induction groups as [|g groups IH]; [reflexivity|].
  destruct groups as [|g' groups]; [reflexivity|].
  exact IH.
Qed.

(** X9. However a block is built, an else-clause can only be its last
    clause. The constructor makes a block of one clause, which has the
    property; [addcondition] keeps it, whether it returns or raises;
    [append] keeps it and changes no condition. On a block with the
    property [addcondition] raises exactly when the block has an
    else-clause. *)
Theorem ConditionBlock_else_only_last (self_loc loc : Location)
    (groups : list (Condition * list Statement)) :
  else_only_last groups ->
  (forall condition, else_only_last (ConditionBlock_init loc condition).2)
  /\ (forall condition,
        else_only_last (ConditionBlock_addcondition self_loc groups loc condition).2)
  /\ (forall statement,
        else_only_last (ConditionBlock_append groups statement)
        /\ map fst (ConditionBlock_append groups statement) = map fst groups)
  /\ (forall condition,
        ElseCondition ∈ map fst groups
        <-> exists e, (ConditionBlock_addcondition self_loc groups loc condition).1 = Raised e).
Proof.
  intros Hwf. split; [|split; [|split]].
  - intros condition pre post. cbn.
    destruct pre as [|c pre]; cbn; intros Heq.
    + now injection Heq.
    + injection Heq as _ Heq. now destruct pre.
  - intros condition. unfold ConditionBlock_addcondition.
    destruct (last groups) as [[c statements]|] eqn:Hlast.
    + destruct c; cbn [snd]; try exact Hwf.
      all: intros pre post; rewrite map_app; cbn [map fst]; intros Heq.
      all: destruct post as [|p post _] using rev_ind; [reflexivity|].
      all: rewrite app_comm_cons, app_assoc in Heq.
      all: apply app_inj_tail in Heq as [Heq _].
      all: pose proof (Hwf _ _ Heq) as ->.
      all: pose proof (last_map_fst groups) as Hl.
      all: rewrite Heq, last_snoc, Hlast in Hl; discriminate.
    + apply last_None in Hlast as ->. cbn [snd app].
      intros pre post. cbn.
      destruct pre as [|c pre]; cbn; intros Heq.
      * now injection Heq.
      * injection Heq as _ Heq. now destruct pre.
  - intros statement. split; [|apply ConditionBlock_append_conditions].
    intros pre post. rewrite ConditionBlock_append_conditions. apply Hwf.
  - intros condition. unfold ConditionBlock_addcondition. split.
    + intros Hin. apply list_elem_of_split in Hin as (pre & post & Heq).
      pose proof (Hwf _ _ Heq) as ->.
      pose proof (last_map_fst groups) as Hl. rewrite Heq, last_snoc in Hl.
      destruct (last groups) as [[c statements]|]; [|discriminate].
      cbn in Hl. injection Hl as <-. eexists. reflexivity.
    + intros [e He].
      destruct (last groups) as [[c statements]|] eqn:Hlast; [|discriminate].
      destruct c; try discriminate.
      apply last_Some in Hlast as [pre ->].
      rewrite map_app. cbn. set_solver.
Qed.

Lemma ConditionBlock_select_elem (groups : list (Condition * list Statement))
    (makefile : Makefile) (statements : list Statement) :
  ConditionBlock_select groups makefile = Some statements ->
  exists c, (c, statements) ∈ groups /\ Condition_evaluate c makefile = true.
Proof.
  induction groups as [|[c st] groups IH]; [discriminate|].
  cbn [ConditionBlock_select].
  destruct (Condition_evaluate c makefile) eqn:Hc.
  - intros [= <-]. exists c. split; [left|assumption].
  - intros Hs. destruct (IH Hs) as (c' & Hin & Hc'). exists c'. split; [now right|assumption].
Qed.

(** X10. A block that ends with an else-clause always executes the
    statements of one of its clauses, one whose condition holds on the
    model: it never falls through. When no condition before the else-clause
    holds, the statements executed are those of the else-clause. *)
Theorem ConditionBlock_execute_with_else (loc : Location)
    (clauses : list (Condition * list Statement)) (otherwise : list Statement)
    (makefile : Makefile) (context : ExecutionContext) :
  (exists c statements,
     (c, statements) ∈ clauses ++ [(ElseCondition, otherwise)]
     /\ Condition_evaluate c makefile = true
     /\ execute (ConditionBlock loc (clauses ++ [(ElseCondition, otherwise)])) makefile context
        = StatementList_run statements makefile context)
  /\ (Forall (fun g => Condition_evaluate g.1 makefile = false) clauses ->
      execute (ConditionBlock loc (clauses ++ [(ElseCondition, otherwise)])) makefile context
      = StatementList_run otherwise makefile context).
Proof.
  rewrite execute_ConditionBlock. split.
  - destruct (ConditionBlock_select (clauses ++ [(ElseCondition, otherwise)]) makefile)
      as [statements|] eqn:Hs.
    + destruct (ConditionBlock_select_elem _ _ _ Hs) as (c & Hin & Hc).
      exists c, statements. repeat split; assumption.
    + exfalso. clear loc context. induction clauses as [|[c st] clauses IH].
      * discriminate.
      * cbn in Hs. destruct (Condition_evaluate c makefile); [discriminate|]. now apply IH.
  - intros Hpre. now rewrite (ConditionBlock_select_first _ [] ElseCondition otherwise _ Hpre).
Qed.

Lemma StatementList_run_and_then (l1 l2 : list Statement) (makefile : Makefile)
    (context : ExecutionContext) :
  StatementList_run (l1 ++ l2) makefile context
  = and_then (StatementList_run l1 makefile context) (StatementList_run l2).
Proof.
  revert makefile context. induction l1 as [|s l1 IH]; intros makefile context.
  - reflexivity.
  - cbn [app StatementList_run].
    destruct (execute s makefile context) as [[[[]|e] makefile'] context'].
    + apply IH.
    + reflexivity.
Qed.

Lemma StatementList_run_one (s : Statement) (makefile : Makefile)
    (context : ExecutionContext) :
  StatementList_run [s] makefile context = execute s makefile context.
Proof.
  cbn [StatementList_run].
  now destruct (execute s makefile context) as [[[[]|e] makefile'] context'].
Qed.

(** X11. Running a statement list made of two parts is running the first
    part and then, from the model and the context it leaves, the second;
    when the first part raises, the second is not run and the model and the
    context stay as the first part left them. A list of one statement does
    what the statement does. *)
Theorem StatementList_run_app (l1 l2 : list Statement) (makefile : Makefile)
    (context : ExecutionContext) :
  StatementList_run (l1 ++ l2) makefile context
  = and_then (StatementList_run l1 makefile context) (StatementList_run l2)
  /\ (forall s, and_then (execute s makefile context) (StatementList_run l2)
                = StatementList_run (s :: l2) makefile context)
  /\ (forall s, StatementList_run [s] makefile context = execute s makefile context).
Proof.
  split; [|split].
  - apply StatementList_run_and_then.
  - intros s. cbn [StatementList_run]. unfold and_then.
    now destruct (execute s makefile context) as [[[[]|e] makefile'] context'].
  - intros s. apply StatementList_run_one.
Qed.

(** A run of commands under a context with a current rule: each command
    goes to the current rule, the context stays. *)
Lemma StatementList_run_commands (cmds : list Expansion) (rule : CurrentRule)
    (makefile : Makefile) :
  StatementList_run (map Command cmds) makefile (mkContext (Some rule))
  = (Returned tt,
     fold_left (fun mk c => CurrentRule_addcommand rule c mk) cmds makefile,
     mkContext (Some rule)).
Proof.
  revert makefile. induction cmds as [|c cmds IH]; intros makefile; [reflexivity|].
  cbn [map StatementList_run execute]. unfold Command_execute. cbn [currule].
  apply IH.
Qed.

Lemma RuleObject_commands_fold (cmds : list Expansion) (obj : RuleObject) :
  RuleObject_commands (fold_left (fun o c => RuleObject_addcommand c o) cmds obj)
  = RuleObject_commands obj ++ cmds.
Proof.
  revert obj. induction cmds as [|c cmds IH]; intros obj; cbn [fold_left].
  - now rewrite app_nil_r.
  - rewrite IH. destruct obj; cbn; now rewrite <- app_assoc.
Qed.

(** The commands added to the rule object [r] go to that object, in their
    order, and to no other. *)
Lemma fold_addcommand_store (cmds : list Expansion) (r : nat) (makefile : Makefile) :
  let makefile' :=
    fold_left (fun mk c => CurrentRule_addcommand (RuleAt r) c mk) cmds makefile in
  rulestore makefile' !! r
  = fold_left (fun o c => RuleObject_addcommand c o) cmds <$> rulestore makefile !! r
  /\ (forall i, i <> r -> rulestore makefile' !! i = rulestore makefile !! i)
  /\ length (rulestore makefile') = length (rulestore makefile)
  /\ targets makefile' = targets makefile
  /\ implicitrules makefile' = implicitrules makefile
  /\ defaulttarget makefile' = defaulttarget makefile
  /\ variables makefile' = variables makefile.
Proof.
  revert makefile. induction cmds as [|c cmds IH]; intros makefile; cbn zeta.
  - cbn [fold_left]. split; [now destruct (rulestore makefile !! r)|repeat split].
  - cbn [fold_left].
    destruct (IH (CurrentRule_addcommand (RuleAt r) c makefile))
      as (Hr & Hother & Hlen & Ht & Hi & Hd & Hv).
    rewrite Hr, Hlen, Ht, Hi, Hd, Hv.
    split; [|split; [|split]].
    + cbn [CurrentRule_addcommand set_rulestore rulestore].
      rewrite list_lookup_alter_eq. now destruct (rulestore makefile !! r).
    + intros i Hne. rewrite (Hother i Hne).
      cbn [CurrentRule_addcommand set_rulestore rulestore].
      now apply list_lookup_alter_ne.
    + cbn [CurrentRule_addcommand set_rulestore rulestore]. apply length_alter.
    + repeat split.
Qed.

(** A rule whose targets are all of one kind puts one rule object, without
    commands, at the end of the store, and makes it the current rule. *)
Lemma Rule_execute_store (targetexp depexp : Expansion) (doublecolon : bool)
    (makefile : Makefile) (context : ExecutionContext) (b : bool) :
  let tlist := map Pattern_new
                 (_expandwildcards makefile
                    (splitwords (resolve targetexp makefile (variables makefile)))) in
  tlist <> [] ->
  Forall (fun t => ispattern t = b) tlist ->
  exists makefile' obj,
    execute (Rule targetexp depexp doublecolon) makefile context
    = (Returned tt, makefile', mkContext (Some (RuleAt (length (rulestore makefile)))))
    /\ rulestore makefile' = rulestore makefile ++ [obj]
    /\ RuleObject_commands obj = [].
Proof.
  intros tlist Hne Hall.
  assert (Hexec : execute (Rule targetexp depexp doublecolon) makefile context
                  = Rule_execute targetexp depexp doublecolon makefile context) by reflexivity.
  unfold Rule_execute in Hexec. fold tlist in Hexec.
  destruct tlist as [|target0 tlist'] eqn:E; [contradiction|]. rewrite <- E in *.
  rewrite (ispatterns_uniform b tlist Hne Hall) in Hexec.
  destruct b.
  - eexists. eexists. split; [exact Hexec|]. split; reflexivity.
  - cbv beta iota zeta in Hexec.
    change (size ({[false]} : gset bool) =? 2)%nat with false in Hexec.
    change (elements ({[false]} : gset bool)) with [false] in Hexec.
    cbv beta iota zeta in Hexec. unfold new_rule in Hexec.
    rewrite fold_left_map_gettarget in Hexec.
    set (mk1 := set_rulestore _ makefile) in Hexec.
    pose proof (fold_addrule_frame (RuleRef (length (rulestore makefile)))
                  (map gettarget tlist) mk1) as (_ & _ & _ & Hstore & _).
    eexists. eexists. split; [exact Hexec|].
    cbn [Makefile_foundtarget set_defaulttarget rulestore].
    split; [exact Hstore|reflexivity].
Qed.

(** X12. A rule, or a static pattern rule, whose target expansion leaves no
    target after wildcard expansion: the statement returns, the model is
    untouched, the current rule is a [DummyRule], and the commands that
    follow are accepted and dropped. For the static pattern rule this holds
    whatever the pattern expansion resolves to. *)
Theorem Rule_execute_no_targets (targetexp patternexp depexp : Expansion)
    (doublecolon : bool) (cmds : list Expansion) (makefile : Makefile)
    (context : ExecutionContext) :
  _expandwildcards makefile (splitwords (resolve targetexp makefile (variables makefile))) = [] ->
  StatementList_run (Rule targetexp depexp doublecolon :: map Command cmds) makefile context
  = (Returned tt, makefile, mkContext (Some DummyRule))
  /\ StatementList_run
       (StaticPatternRule targetexp patternexp depexp doublecolon :: map Command cmds)
       makefile context
     = (Returned tt, makefile, mkContext (Some DummyRule)).
Proof.
  intros Hnil.
  assert (Hdrop : forall mk,
             fold_left (fun mk c => CurrentRule_addcommand DummyRule c mk) cmds mk = mk).
  { induction cmds as [|c cmds IH]; intros mk; [reflexivity|]. cbn. apply IH. }
  split; cbn [StatementList_run execute].
  - unfold Rule_execute. rewrite Hnil. cbn [map].
    now rewrite StatementList_run_commands, Hdrop.
  - unfold StaticPatternRule_execute. rewrite Hnil.
    now rewrite StatementList_run_commands, Hdrop.
Qed.

(** X13. A rule with targets of one kind, followed by commands: the run
    returns, the rule of the statement is the current rule at the end, the
    store has that one rule object more, its commands are exactly the
    commands that followed, in their order, and the rule objects that were
    there are as they were. *)
Theorem Rule_then_commands (targetexp depexp : Expansion) (doublecolon : bool)
    (cmds : list Expansion) (makefile : Makefile) (context : ExecutionContext) (b : bool) :
  let tlist := map Pattern_new
                 (_expandwildcards makefile
                    (splitwords (resolve targetexp makefile (variables makefile)))) in
  let rule := length (rulestore makefile) in
  tlist <> [] ->
  Forall (fun t => ispattern t = b) tlist ->
  exists makefile',
    StatementList_run (Rule targetexp depexp doublecolon :: map Command cmds) makefile context
    = (Returned tt, makefile', mkContext (Some (RuleAt rule)))
    /\ length (rulestore makefile') = S rule
    /\ RuleObject_commands <$> rulestore makefile' !! rule = Some cmds
    /\ forall r, (r < rule)%nat -> rulestore makefile' !! r = rulestore makefile !! r.
Proof.
  intros tlist rule Hne Hall.
  destruct (Rule_execute_store targetexp depexp doublecolon makefile context b Hne Hall)
    as (mk1 & obj & Hexec & Hstore & Hcmds).
  cbn [StatementList_run]. rewrite Hexec, StatementList_run_commands.
  destruct (fold_addcommand_store cmds rule mk1) as (Hr & Hother & Hlen & _).
  eexists. split; [reflexivity|]. fold rule. split; [|split].
  - rewrite Hlen, Hstore, length_app. cbn. fold rule. lia.
  - rewrite Hr, Hstore. unfold rule. rewrite list_lookup_middle by reflexivity.
    cbn. now rewrite RuleObject_commands_fold, Hcmds.
  - intros r Hlt. rewrite Hother by lia. rewrite Hstore.
    apply lookup_app_l. exact Hlt.
Qed.

(** X14. The other errors of a static pattern rule with at least one
    target. A pattern expansion that does not resolve to exactly one word
    is a definition error at the location of the pattern expansion, raised
    before anything is created. With one pattern, a target that is itself a
    pattern, after targets that are explicit and match, is a definition
    error at the location of the target expansion that names the target,
    whether or not it matches the pattern; the one rule object of the
    statement has been created, no goal has been reported, the global scope
    and the implicit rules are untouched and the current rule is the one
    before the statement. *)
Theorem StaticPatternRule_execute_errors (targetexp patternexp depexp : Expansion)
    (doublecolon : bool) (makefile : Makefile) (context : ExecutionContext) :
  let tlist := _expandwildcards makefile
                 (splitwords (resolve targetexp makefile (variables makefile))) in
  let patterns := splitwords (resolve patternexp makefile (variables makefile)) in
  let run := execute (StaticPatternRule targetexp patternexp depexp doublecolon)
               makefile context in
  tlist <> [] ->
  (length patterns <> 1%nat ->
     run = (Raised (DataError "Static pattern rules must have a single pattern"
                      (Expansion_loc patternexp)),
            makefile, context))
  /\ (forall pattern0 pre t post,
        patterns = [pattern0] ->
        tlist = pre ++ t :: post ->
        Forall (fun u => ispattern (Pattern_new u) = false) pre ->
        Forall (fun u => is_Some (Pattern_match (Pattern_new pattern0) u)) pre ->
        ispattern (Pattern_new t) = true ->
        exists makefile' obj,
          run = (Raised (DataError
                           ("Target '" +:+ t
                              +:+ "' of a static pattern rule must not be a pattern")
                           (Expansion_loc targetexp)),
                 makefile', context)
          /\ rulestore makefile' = rulestore makefile ++ [obj]
          /\ defaulttarget makefile' = defaulttarget makefile
          /\ variables makefile' = variables makefile
          /\ implicitrules makefile' = implicitrules makefile).
Proof.
  intros tlist patterns run Hne.
  assert (Hrun : run = StaticPatternRule_execute targetexp patternexp depexp doublecolon
                         makefile context) by reflexivity.
  unfold StaticPatternRule_execute in Hrun. fold tlist in Hrun. fold patterns in Hrun.
  destruct tlist as [|target0 tlist'] eqn:E; [contradiction|]. rewrite <- E in *.
  split.
  - intros Hlen. rewrite Hrun.
    destruct patterns as [|p0 [|p1 ps]]; [reflexivity| |reflexivity].
    now destruct Hlen.
  - intros pattern0 pre t post Hpat Hsplit Hexp Hmatch Ht.
    rewrite Hpat in Hrun. unfold new_rule in Hrun. cbv beta iota zeta in Hrun.
    set (mk0 := set_rulestore _ makefile) in Hrun.
    destruct (StaticPatternRule_attach_app (Expansion_loc targetexp) (length (rulestore makefile))
                (Pattern_new pattern0) pre (t :: post) mk0 Hexp Hmatch)
      as (mk1 & Happ & (Hv & _ & Hi & Hs & Hd & _) & _).
    rewrite Hsplit, Happ in Hrun. cbn [StaticPatternRule_attach] in Hrun.
    rewrite Ht in Hrun.
    eexists. eexists. split; [exact Hrun|].
    rewrite Hs, Hd, Hv, Hi. repeat split.
Qed.

Lemma same_but_scoped_variables_refl (makefile : Makefile) :
  same_but_scoped_variables makefile makefile.
Proof. repeat split. Qed.

Lemma same_but_scoped_variables_trans (m1 m2 m3 : Makefile) :
  same_but_scoped_variables m1 m2 -> same_but_scoped_variables m2 m3 ->
  same_but_scoped_variables m1 m3.
Proof.
  intros (?&?&?&?&?&?&?&?&Hr) (?&?&?&?&?&?&?&?&Hr').
  repeat split; first [congruence | intros name; now rewrite Hr, Hr'].
Qed.

Lemma Makefile_gettarget_scoped (name : string) (makefile : Makefile) :
  same_but_scoped_variables (Makefile_gettarget name makefile) makefile.
Proof.
  unfold Makefile_gettarget. destruct (targets makefile !! name) as [entry|] eqn:E.
  - apply same_but_scoped_variables_refl.
  - repeat split. intros n. unfold rules_of. cbn [set_targets targets].
    destruct (decide (name = n)) as [<-|Hne].
    + now rewrite lookup_insert_eq, E.
    + now rewrite lookup_insert_ne.
Qed.

Lemma Makefile_getpatternvariables_scoped (p : Pattern) (makefile : Makefile) :
  same_but_scoped_variables (Makefile_getpatternvariables p makefile) makefile.
Proof.
  unfold Makefile_getpatternvariables.
  destruct (patternvariables_lookup p (patternvariables makefile)); repeat split.
Qed.

Lemma Scope_put_scoped (v : Scope) (vars : Variables) (makefile : Makefile) :
  v <> GlobalScope -> same_but_scoped_variables (Scope_put v vars makefile) makefile.
Proof.
  intros Hv. destruct v as [|p|name]; [contradiction| |]; repeat split.
  intros n. unfold rules_of. cbn [Scope_put set_targets targets].
  destruct (decide (name = n)) as [<-|Hne].
  - rewrite lookup_alter_eq. now destruct (targets makefile !! name).
  - now rewrite lookup_alter_ne.
Qed.

Lemma SetVariable_assign_scoped (vname token value : string) (valueloc : Location)
    (source : Source) (v : Scope) (makefile : Makefile) :
  v <> GlobalScope ->
  same_but_scoped_variables
    (SetVariable_assign vname token value valueloc source v makefile).2 makefile.
Proof.
  intros Hv. unfold SetVariable_assign.
  destruct (String.eqb token "+="); [now apply Scope_put_scoped|].
  destruct (String.eqb token "?=").
  { destruct (Variables_get (Scope_get v makefile) vname) as [[f s] [old|]].
    - apply same_but_scoped_variables_refl.
    - now apply Scope_put_scoped. }
  destruct (String.eqb token "="); [now apply Scope_put_scoped|].
  destruct (negb (String.eqb token ":=")).
  - apply same_but_scoped_variables_refl.
  - now apply Scope_put_scoped.
Qed.

Lemma SetVariable_loop_scoped (vname token value : string) (valueloc : Location)
    (source : Source) (setvariables : list Scope) (makefile : Makefile) :
  Forall (fun v => v <> GlobalScope) setvariables ->
  same_but_scoped_variables
    (SetVariable_loop vname token value valueloc source setvariables makefile).2 makefile.
Proof.
  intros Hall. revert makefile.
  induction Hall as [|v rest Hv _ IH]; intros makefile.
  - apply same_but_scoped_variables_refl.
  - cbn [SetVariable_loop].
    pose proof (SetVariable_assign_scoped vname token value valueloc source v makefile Hv)
      as Hassign.
    destruct (SetVariable_assign vname token value valueloc source v makefile)
      as [[[]|e] makefile1]; cbn [snd] in Hassign.
    + exact (same_but_scoped_variables_trans _ _ _ (IH makefile1) Hassign).
    + exact Hassign.
Qed.

Lemma SetVariable_scopes_scoped (tlist : list Pattern) (makefile : Makefile) :
  Forall (fun v => v <> GlobalScope) (SetVariable_scopes tlist makefile).1
  /\ same_but_scoped_variables (SetVariable_scopes tlist makefile).2 makefile.
Proof.
  revert makefile. induction tlist as [|t tlist IH]; intros makefile.
  - split; [constructor|apply same_but_scoped_variables_refl].
  - cbn [SetVariable_scopes].
    destruct (ispattern t).
    + destruct (IH (Makefile_getpatternvariables t makefile)) as [Hs Hm].
      destruct (SetVariable_scopes tlist (Makefile_getpatternvariables t makefile))
        as [scopes makefile1]. cbn [fst snd] in *.
      split; [constructor; [discriminate|assumption]|].
      exact (same_but_scoped_variables_trans _ _ _ Hm
               (Makefile_getpatternvariables_scoped t makefile)).
    + destruct (IH (Makefile_gettarget (gettarget t) makefile)) as [Hs Hm].
      destruct (SetVariable_scopes tlist (Makefile_gettarget (gettarget t) makefile))
        as [scopes makefile1]. cbn [fst snd] in *.
      split; [constructor; [discriminate|assumption]|].
      exact (same_but_scoped_variables_trans _ _ _ Hm
               (Makefile_gettarget_scoped (gettarget t) makefile)).
Qed.

(** X15. An assignment with a target expansion, whatever its operator, its
    targets and its outcome, leaves the context, the global scope, the rule
    store, the implicit rules, the goal, the search paths, the exported set
    and the override list as they are, and the rules attached to every
    target are what they were: only variable scopes of targets and patterns
    can have changed. *)
Theorem SetVariable_execute_target_frame (vnameexp : Expansion) (token value : string)
    (valueloc : Location) (targetexp : Expansion) (source : Source)
    (makefile : Makefile) (context : ExecutionContext) :
  let run := execute (SetVariable vnameexp token value valueloc (Some targetexp) source)
               makefile context in
  run.2 = context /\ same_but_scoped_variables run.1.2 makefile.
Proof.
  cbn [execute]. unfold SetVariable_execute.
  destruct (PyStr.len _ =? 0).
  - split; [reflexivity|apply same_but_scoped_variables_refl].
  - set (tlist := map Pattern_new _).
    destruct (SetVariable_scopes_scoped tlist makefile) as [Hs Hm].
    destruct (SetVariable_scopes tlist makefile) as [scopes makefile1]. cbn [fst snd] in *.
    pose proof (SetVariable_loop_scoped
                  (resolve vnameexp makefile (variables makefile)) token value valueloc
                  source scopes makefile1 Hs) as Hl.
    destruct (SetVariable_loop _ token value valueloc source scopes makefile1)
      as [r makefile2]. cbn [fst snd] in *.
    split; [reflexivity|].
    exact (same_but_scoped_variables_trans _ _ _ Hl Hm).
Qed.

(** X16. An assignment with [=] whose target expansion resolves to one
    explicit target puts the binding, recursive and with the raw text, in
    the variable scope of that target, whose table entry is created if the
    target had none; the rules of the target stay. The precondition is that
    the scope of the target holds no binding of the name from a source that
    outranks the new one. *)
Theorem SetVariable_execute_target_scope (vnameexp : Expansion) (value : string)
    (valueloc : Location) (targetexp : Expansion) (source : Source)
    (makefile : Makefile) (context : ExecutionContext) (t : string) :
  let vname := resolve vnameexp makefile (variables makefile) in
  let name := gettarget (Pattern_new t) in
  vname <> "" ->
  splitwords (resolve targetexp makefile (variables makefile)) = [t] ->
  ispattern (Pattern_new t) = false ->
  (forall flavor prevsource old,
     Scope_get (TargetScope name) makefile !! vname = Some (flavor, prevsource, old) ->
     outranks prevsource source = false) ->
  exists makefile' entry,
    execute (SetVariable vnameexp "=" value valueloc (Some targetexp) source) makefile context
    = (Returned tt, makefile', context)
    /\ targets makefile' !! name = Some entry
    /\ tvariables entry !! vname = Some (FLAVOR_RECURSIVE, source, value)
    /\ (forall other, other <> vname ->
          tvariables entry !! other = Scope_get (TargetScope name) makefile !! other)
    /\ rules entry = rules_of makefile name
    /\ variables makefile' = variables makefile.
Proof.
  intros vname name Hname Hwords Hexp Hrank.
  cbn [execute]. unfold SetVariable_execute. fold vname.
  rewrite (len_nonempty _ Hname), Hwords. cbn [map SetVariable_scopes].
  rewrite Hexp. fold name. cbn [SetVariable_loop].
  unfold SetVariable_assign. cbn [String.eqb Ascii.eqb Bool.eqb].
  assert (Hscope : Scope_get (TargetScope name) (Makefile_gettarget name makefile)
                   = Scope_get (TargetScope name) makefile).
  { unfold Makefile_gettarget, Scope_get.
    destruct (targets makefile !! name) eqn:E; [rewrite ?E; reflexivity|].
    cbn [set_targets targets]. rewrite lookup_insert_eq, ?E. reflexivity. }
  rewrite Hscope.
  destruct (Variables_set_lookup (Scope_get (TargetScope name) makefile) vname
              FLAVOR_RECURSIVE source value Hrank) as [Hset Hother].
  set (vars := Variables_set _ vname FLAVOR_RECURSIVE source value) in *.
  assert (Hentry : exists old, targets (Makefile_gettarget name makefile) !! name = Some old
                               /\ rules old = rules_of makefile name).
  { unfold Makefile_gettarget, rules_of.
    destruct (targets makefile !! name) as [old|] eqn:E.
    - exists old. now rewrite E.
    - exists Target_new. cbn [set_targets targets]. now rewrite lookup_insert_eq. }
  destruct Hentry as (old & Hold & Hrules).
  eexists. exists (mkTarget (rules old) vars). split; [reflexivity|].
  cbn [Scope_put set_targets targets variables].
  rewrite lookup_alter_eq, Hold. cbn.
  repeat split; try assumption.
  unfold Makefile_gettarget. now destruct (targets makefile !! name).
Qed.

Lemma Include_loop_app (l1 l2 : list string) (required : bool) (loc : Location)
    (makefile : Makefile) :
  Include_loop (l1 ++ l2) required loc makefile
  = match Include_loop l1 required loc makefile with
    | (Returned _, makefile1) => Include_loop l2 required loc makefile1
    | (Raised e, makefile1) => (Raised e, makefile1)
    end.
Proof.
  revert makefile. induction l1 as [|f l1 IH]; intros makefile; [reflexivity|].
  cbn [app Include_loop].
  destruct (Makefile_include f required loc makefile) as [[[]|e] makefile1].
  - apply IH.
  - reflexivity.
Qed.

(** A run of inclusions that all return leaves the model that including
    the files one after the other gives. *)
Lemma Include_loop_returns (files : list string) (required : bool) (loc : Location)
    (makefile : Makefile) :
  (forall pre f post,
     files = pre ++ f :: post ->
     (Makefile_include f required loc (Include_all pre required loc makefile)).1
     = Returned tt) ->
  Include_loop files required loc makefile
  = (Returned tt, Include_all files required loc makefile).
Proof.
  revert makefile. induction files as [|f files IH]; intros makefile Hall; [reflexivity|].
  pose proof (Hall [] f files eq_refl) as Hf. cbn [Include_all fold_left] in Hf.
  cbn [Include_loop]. unfold Include_all. cbn [fold_left].
  destruct (Makefile_include f required loc makefile) as [[[]|e] makefile1] eqn:E;
    [|discriminate Hf].
  cbn [snd]. apply IH. intros pre g post ->.
  pose proof (Hall (f :: pre) g post eq_refl) as Hg.
  unfold Include_all in Hg. cbn [fold_left] in Hg. now rewrite E in Hg.
Qed.

(** X17. An include statement hands the words of its resolved expansion to
    the model one by one, in order, each on the model the one before left.
    When every inclusion returns, the statement returns and the model is
    the one the inclusions, one after the other, have made. When the
    inclusion of a word raises, those before it having returned, the
    statement raises the same error, the words after it are not included,
    and the model is as that inclusion left it. The context is never
    changed. *)
Theorem Include_execute_first_failure (exp : Expansion) (required : bool)
    (makefile : Makefile) (context : ExecutionContext) :
  let files := splitwords (resolve exp makefile (variables makefile)) in
  let loc := Expansion_loc exp in
  let returns := fun (done : list string) (f : string) =>
    (Makefile_include f required loc (Include_all done required loc makefile)).1
    = Returned tt in
  ((forall pre f post, files = pre ++ f :: post -> returns pre f) ->
   execute (Include exp required) makefile context
   = (Returned tt, Include_all files required loc makefile, context))
  /\ (forall pre f post e makefile',
        files = pre ++ f :: post ->
        (forall pre' g post', pre = pre' ++ g :: post' -> returns pre' g) ->
        Makefile_include f required loc (Include_all pre required loc makefile)
        = (Raised e, makefile') ->
        execute (Include exp required) makefile context = (Raised e, makefile', context))
  /\ (execute (Include exp required) makefile context).2 = context.
Proof.
  intros files loc returns. cbn [execute]. unfold Include_execute. fold files. fold loc.
  split; [|split].
  - intros Hall. now rewrite (Include_loop_returns files required loc makefile Hall).
  - intros pre f post e makefile' Hfiles Hpre Hf.
    rewrite Hfiles, Include_loop_app, (Include_loop_returns pre required loc makefile Hpre).
    cbn [Include_loop]. now rewrite Hf.
  - now destruct (Include_loop files required loc makefile).
Qed.

Lemma split_char_pieces (sep : ascii) (s : string) :
  split_char sep s <> []
  /\ Forall (fun w => sep ∉ PyStr.chars w) (split_char sep s).
Proof.
  induction s as [|c s [Hne IH]]; cbn [split_char].
  - split; [discriminate|]. constructor; [|constructor]. cbn. set_solver.
  - destruct (Ascii.eqb c sep) eqn:E.
    + split; [discriminate|]. constructor; [cbn; set_solver|exact IH].
    + apply Ascii.eqb_neq in E.
      destruct (split_char sep s) as [|w ws]; [contradiction|].
      split; [discriminate|].
      apply Forall_cons in IH as [Hw Hws]. constructor; [|exact Hws].
      cbn [PyStr.chars]. intros Hin.
      apply elem_of_cons in Hin as [Hin|Hin]; [now apply E|now apply Hw].
Qed.

Lemma flat_map_filter {A B : Type} (P : B -> Prop) `{forall b, Decision (P b)}
    (g : A -> list B) (l : list A) :
  flat_map (fun a => filter P (g a)) l = filter P (concat (map g l)).
Proof.
  induction l as [|a l IH]; [reflexivity|].
  cbn [flat_map map concat]. now rewrite filter_app, IH.
Qed.

Lemma elem_of_concat_map {A B : Type} (g : A -> list B) (l : list A) (b : B) :
  b ∈ concat (map g l) -> exists a, a ∈ l /\ b ∈ g a.
Proof.
  induction l as [|a l IH]; cbn [map concat]; intros Hin.
  - now apply elem_of_nil in Hin.
  - apply elem_of_app in Hin as [Hin|Hin].
    + exists a. split; [left|exact Hin].
    + destruct (IH Hin) as (a' & Ha' & Hb). exists a'. split; [now right|exact Hb].
Qed.

(** X18. A search-path directive always returns, and changes nothing but
    the search-path rules of the model. With no word it clears all of the
    rules; with one word it clears the rules of that pattern; with more
    words, the first is the pattern and each of the others is cut at its
    colons: the pieces that are not empty, in order, are the directories
    added for the pattern, and when there is none the model is untouched.
    No directory handed to the model is empty or contains a colon. *)
Theorem VPathDirective_execute_spec (exp : Expansion) (makefile : Makefile)
    (context : ExecutionContext) :
  let words := splitwords (resolve exp makefile (variables makefile)) in
  let run := execute (VPathDirective exp) makefile context in
  run.1.1 = Returned tt /\ run.2 = context /\ same_but_vpaths run.1.2 makefile
  /\ (words = [] -> vpaths run.1.2 = clearallvpaths (vpaths makefile))
  /\ (forall w, words = [w] -> vpaths run.1.2 = clearvpath (Pattern_new w) (vpaths makefile))
  /\ (forall w m mpaths, words = w :: m :: mpaths ->
        let dirs := filter (fun dir => dir <> "")
                      (concat (map (split_char colon) (m :: mpaths))) in
        vpaths run.1.2
        = match dirs with
          | [] => vpaths makefile
          | _ => addvpath (Pattern_new w) dirs (vpaths makefile)
          end
        /\ Forall (fun dir => dir <> "" /\ colon ∉ PyStr.chars dir) dirs).
Proof.
  intros words run.
  assert (Hrun : run = VPathDirective_execute exp makefile context) by reflexivity.
  unfold VPathDirective_execute in Hrun. fold words in Hrun.
  assert (Hsame : forall f, same_but_vpaths (set_vpaths f makefile) makefile)
    by (intros f; reflexivity).
  assert (Hid : same_but_vpaths makefile makefile) by (now destruct makefile).
  destruct words as [|w [|m mpaths]].
  - rewrite Hrun. repeat split; try discriminate; try apply Hsame.
  - rewrite Hrun. repeat split; try discriminate; try apply Hsame;
      try (intros w' [= <-]; reflexivity).
  - rewrite (flat_map_filter (fun dir => dir <> "") (split_char colon) (m :: mpaths)) in Hrun.
    set (dirs := filter _ _) in *.
    assert (Hdirs : Forall (fun dir => dir <> "" /\ colon ∉ PyStr.chars dir) dirs).
    { apply Forall_forall. intros dir Hin. unfold dirs in Hin.
      apply list_elem_of_filter in Hin as [Hne Hin]. split; [exact Hne|].
      apply elem_of_concat_map in Hin as (mpath & _ & Hin).
      destruct (split_char_pieces colon mpath) as [_ Hall].
      rewrite Forall_forall in Hall. now apply Hall. }
    rewrite Hrun. destruct dirs as [|d dirs'] eqn:E.
    + repeat split; try discriminate; try exact Hid;
        match goal with
        | Hw : _ :: _ = _ :: _ |- _ =>
            injection Hw as <- <- <-; fold dirs; rewrite E; first [reflexivity|constructor]
        end.
    + repeat split; try discriminate; try apply Hsame;
        match goal with
        | Hw : _ :: _ = _ :: _ |- _ =>
            injection Hw as <- <- <-; fold dirs; rewrite E; first [reflexivity|exact Hdirs]
        end.
Qed.

Lemma fold_left_union (vlist : list string) (exported : gset string) :
  fold_left (fun ex v => ex ∪ {[v]}) vlist exported = exported ∪ list_to_set vlist.
Proof.
  revert exported. induction vlist as [|v vlist IH]; intros exported; cbn [fold_left].
  - cbn. now rewrite (right_id_L ∅ (∪)).
  - rewrite IH. cbn [list_to_set]. now rewrite (assoc_L (∪)).
Qed.

(** X19. An export directive never changes anything but the exported set,
    and never takes a name out of it. In the single form the whole resolved
    text is one name, added as it is. In the other form the words of the
    resolved text are added; with no word the statement raises a definition
    error at the location of the expansion and the model is untouched. *)
Theorem ExportDirective_execute_spec (exp : Expansion) (single : bool)
    (makefile : Makefile) (context : ExecutionContext) :
  let text := resolve exp makefile (variables makefile) in
  let run := execute (ExportDirective exp single) makefile context in
  run.2 = context /\ same_but_exportedvars run.1.2 makefile
  /\ exportedvars makefile ⊆ exportedvars run.1.2
  /\ (single = true ->
      run.1.1 = Returned tt /\ exportedvars run.1.2 = exportedvars makefile ∪ {[text]})
  /\ (single = false -> splitwords text = [] ->
      run = (Raised (DataError "Exporting all variables is not supported" (Expansion_loc exp)),
             makefile, context))
  /\ (single = false -> splitwords text <> [] ->
      run.1.1 = Returned tt
      /\ exportedvars run.1.2 = exportedvars makefile ∪ list_to_set (splitwords text)).
Proof.
  intros text run.
  assert (Hrun : run = ExportDirective_execute exp single makefile context) by reflexivity.
  unfold ExportDirective_execute in Hrun. fold text in Hrun.
  assert (Hid : same_but_exportedvars makefile makefile) by (now destruct makefile).
  destruct single.
  - rewrite Hrun. cbn [fst snd set_exportedvars exportedvars fold_left].
    split; [reflexivity|]. split; [reflexivity|]. split; [apply union_subseteq_l|].
    split; [intros _; split; reflexivity|]. split; discriminate.
  - destruct (splitwords text) as [|v vlist] eqn:E.
    + rewrite Hrun. cbn [fst snd].
      split; [reflexivity|]. split; [exact Hid|]. split; [reflexivity|].
      split; [discriminate|]. split; [reflexivity|].
      intros _ Hne. now destruct Hne.
    + rewrite Hrun. cbn [fst snd set_exportedvars exportedvars].
      rewrite fold_left_union.
      split; [reflexivity|]. split; [reflexivity|]. split; [apply union_subseteq_l|].
      split; [discriminate|]. split; [discriminate|].
      intros _ _. split; reflexivity.
Qed.

Lemma lstrip_cases (s : string) :
  (PyStr.lstrip s = "" /\ Forall (fun c => PyStr.isspace c = true) (PyStr.chars s))
  \/ (exists c r, PyStr.lstrip s = String c r /\ PyStr.isspace c = false).
Proof.
  induction s as [|c s IH]; cbn [PyStr.lstrip PyStr.chars].
  - left. split; [reflexivity|constructor].
  - destruct (PyStr.isspace c) eqn:E.
    + destruct IH as [[Hl Hall]|Hr]; [left|right; exact Hr].
      split; [exact Hl|]. now constructor.
    + right. now exists c, s.
Qed.

Lemma lstrip_spaces (s : string) :
  Forall (fun c => PyStr.isspace c = true) (PyStr.chars s) -> PyStr.lstrip s = "".
Proof.
  induction s as [|c s IH]; cbn [PyStr.lstrip PyStr.chars]; intros Hall; [reflexivity|].
  apply Forall_cons in Hall as [-> Hall]. now apply IH.
Qed.

(** The text is all white space exactly when stripping it leaves nothing. *)
Lemma strip_empty (s : string) :
  PyStr.strip s = "" <-> Forall (fun c => PyStr.isspace c = true) (PyStr.chars s).
Proof.
  unfold PyStr.strip. split.
  - intros Hs. destruct (lstrip_cases s) as [[_ Hall]|(c & r & Hl & Hc)]; [exact Hall|].
    rewrite Hl in Hs. cbn [PyStr.rstrip] in Hs. rewrite Hc in Hs.
    now destruct (PyStr.rstrip r).
  - intros Hall. now rewrite (lstrip_spaces s Hall).
Qed.

(** X20. An empty directive changes neither the model nor the context. It
    returns exactly when every character of the resolved text is white
    space, the empty text included; a text with any other character is a
    definition error at the location of the expansion. *)
Theorem EmptyDirective_execute_spec (exp : Expansion) (makefile : Makefile)
    (context : ExecutionContext) :
  let v := resolve exp makefile (variables makefile) in
  let run := execute (EmptyDirective exp) makefile context in
  (run = (Returned tt, makefile, context)
   <-> Forall (fun c => PyStr.isspace c = true) (PyStr.chars v))
  /\ (run = (Raised (DataError "Line expands to non-empty value" (Expansion_loc exp)),
             makefile, context)
      <-> Exists (fun c => PyStr.isspace c = false) (PyStr.chars v)).
Proof.
  intros v run.
  assert (Hrun : run = EmptyDirective_execute exp makefile context) by reflexivity.
  unfold EmptyDirective_execute in Hrun. fold v in Hrun.
  assert (Hex : Exists (fun c => PyStr.isspace c = false) (PyStr.chars v)
                <-> ~ Forall (fun c => PyStr.isspace c = true) (PyStr.chars v)).
  { rewrite <- Exists_Forall_neg by (intros c; destruct (PyStr.isspace c); auto).
    split; intros Hx; (eapply Exists_impl; [exact Hx|]);
      intros c; cbn beta; destruct (PyStr.isspace c); congruence. }
  rewrite Hex, <- strip_empty, Hrun.
  destruct (String.eqb (PyStr.strip v) "") eqn:E; cbn [negb].
  - apply String.eqb_eq in E. split; split; try discriminate; auto.
    intros Hn. now destruct Hn.
  - apply String.eqb_neq in E. split; split; try discriminate; auto.
    intros Hs. now destruct E.
Qed.

(** X21. Wildcard expansion goes word by word and keeps the order: the
    expansion of two lists one after the other is the two expansions one
    after the other. A list in which no word has glob syntax is returned as
    it is, and the file system is not consulted: the result is the same for
    every model. Every word of a result is a word of the list without glob
    syntax, or a match of a word of the list with glob syntax. *)
Theorem _expandwildcards_spec (makefile : Makefile) (tlist : list string) :
  (forall tlist', _expandwildcards makefile (tlist ++ tlist')
                  = _expandwildcards makefile tlist ++ _expandwildcards makefile tlist')
  /\ (Forall (fun t => hasglob t = false) tlist -> _expandwildcards makefile tlist = tlist)
  /\ (forall w, w ∈ _expandwildcards makefile tlist ->
        exists t, t ∈ tlist
                  /\ ((hasglob t = false /\ w = t)
                      \/ (hasglob t = true /\ w ∈ glob (workdir makefile) t))).
Proof.
  unfold _expandwildcards. split; [|split].
  - intros tlist'. apply flat_map_app.
  - intros Hall. induction Hall as [|t tlist Ht _ IH]; [reflexivity|].
    cbn [flat_map]. rewrite Ht, IH. reflexivity.
  - intros w Hin. induction tlist as [|t tlist IH]; cbn [flat_map] in Hin.
    + now apply elem_of_nil in Hin.
    + apply elem_of_app in Hin as [Hin|Hin].
      * exists t. split; [left|].
        destruct (hasglob t); cbn [negb] in Hin.
        -- right. now split.
        -- left. apply list_elem_of_singleton in Hin. now split.
      * destruct (IH Hin) as (t' & Ht' & Hw). exists t'. split; [now right|exact Hw].
Qed.

Lemma SetVariable_execute_context (vnameexp : Expansion) (token value : string)
    (valueloc : Location) (targetexp : option Expansion) (source : Source)
    (makefile : Makefile) (context : ExecutionContext) :
  (SetVariable_execute vnameexp token value valueloc targetexp source makefile context).2
  = context.
Proof.
  unfold SetVariable_execute.
  destruct (PyStr.len _ =? 0); [reflexivity|].
  destruct targetexp as [targetexp|].
  - destruct (SetVariable_scopes _ makefile) as [scopes makefile1].
    now destruct (SetVariable_loop _ token value valueloc source scopes makefile1).
  - now destruct (SetVariable_loop _ token value valueloc source [GlobalScope] makefile).
Qed.

(** A statement without rules leaves the current rule of the context as it
    is, on every model. *)
Lemma execute_rule_free (s : Statement) :
  forall makefile context, rule_free s = true -> (execute s makefile context).2 = context.
Proof.
  revert s. fix IH 1. intros s makefile context Hs.
  destruct s as [a| | |exp|vnameexp token value valueloc targetexp source|loc groups
                |exp required|exp|exp single|exp]; try discriminate Hs; cbn [execute].
  - reflexivity.
  - unfold Command_execute. now destruct (currule context).
  - apply SetVariable_execute_context.
  - cbn [rule_free] in Hs. revert Hs.
    induction groups as [|[c statements] groups IHg]; intros Hs; [reflexivity|].
    cbn [forallb snd] in Hs. apply andb_prop in Hs as [Hstatements Hgroups].
    destruct (Condition_evaluate c makefile); [|exact (IHg Hgroups)].
    clear IHg Hgroups. revert makefile context Hstatements.
    induction statements as [|s statements IHs]; intros makefile context Hstatements;
      [reflexivity|].
    cbn [forallb] in Hstatements. apply andb_prop in Hstatements as [Hs Hrest].
    pose proof (IH s makefile context Hs) as Hctx.
    destruct (execute s makefile context) as [[[[]|e] makefile'] context'];
      cbn [snd] in Hctx; subst context'.
    + exact (IHs makefile' context Hrest).
    + reflexivity.
  - unfold Include_execute.
    now destruct (Include_loop _ required (Expansion_loc exp) makefile).
  - unfold VPathDirective_execute.
    destruct (splitwords _) as [|w [|m mpaths]]; try reflexivity.
    now destruct (flat_map _ _).
  - unfold ExportDirective_execute.
    destruct single; [reflexivity|]. now destruct (splitwords _).
  - unfold EmptyDirective_execute. now destruct (negb _).
Qed.

(** X22. Only rules set the current rule. A run of statements that are
    neither rules nor static pattern rules, blocks of such statements
    included, ends with the context it started with, whether it returns or
    raises; so a command that comes after such statements is executed under
    the context that was there before them, and goes to the rule that was
    current then. *)
Theorem StatementList_run_rule_free (self : list Statement) (makefile : Makefile)
    (context : ExecutionContext) :
  forallb rule_free self = true ->
  (StatementList_run self makefile context).2 = context
  /\ forall exp,
       StatementList_run (self ++ [Command exp]) makefile context
       = and_then (StatementList_run self makefile context)
           (fun makefile' _ => execute (Command exp) makefile' context).
Proof.
  intros Hfree.
  assert (Hctx : forall makefile, (StatementList_run self makefile context).2 = context).
  { clear makefile. induction self as [|s self IHl]; intros makefile; [reflexivity|].
    cbn [forallb] in Hfree. apply andb_prop in Hfree as [Hs Hrest].
    cbn [StatementList_run].
    pose proof (execute_rule_free s makefile context Hs) as Hc.
    destruct (execute s makefile context) as [[[[]|e] makefile'] context'];
      cbn [snd] in Hc; subst context'.
    - exact (IHl Hrest makefile').
    - reflexivity. }
  split; [apply Hctx|].
  intros exp. rewrite StatementList_run_and_then.
  specialize (Hctx makefile).
  destruct (StatementList_run self makefile context) as [[[[]|e] makefile'] context'];
    cbn [snd] in Hctx; subst context'; cbn [and_then].
  - apply StatementList_run_one.
  - reflexivity.
Qed.

End MoreProperties.

(* ===================================================================== *)
(** ** The engine on concrete makefiles *)
(* ===================================================================== *)

Section Instances.
Import Dialect.

(** [ifndef X] on a model where [X] is entirely absent evaluates to true:
    a definedness condition does not return false for every absent
    variable. *)
Lemma IfdefCondition_absent_ifndef_true :
  variables empty_makefile !! resolve (lit "X") empty_makefile (variables empty_makefile) = None
  /\ Condition_evaluate (IfdefCondition (lit "X") false) empty_makefile = true
  /\ Condition_evaluate (IfdefCondition (lit "X") false) empty_makefile <> false.
Proof. repeat split. discriminate. Qed.

(** [ifdef X] on the same model evaluates to false, and on a model where
    [X] is bound to a non-empty text to true. *)
Example IfdefCondition_examples :
  Condition_evaluate (IfdefCondition (lit "X") true) empty_makefile = false
  /\ Condition_evaluate (IfdefCondition (lit "X") true) (with_X "1") = true
  /\ Condition_evaluate (IfdefCondition (lit "X") false) (with_X "1") = false
  /\ Condition_evaluate (IfdefCondition (lit "X") true) (with_X "") = false.
Proof. repeat split. Qed.



(** The example of section 8 of the specification: after [X = 1], the
    assignment of [$(X)] to [Y] and [X = 2], reading [Y] gives [1] when the
    assignment was [:=] and [2] when it was [=]. *)
Example SetVariable_later_change :
  (let '(_, makefile, _) := StatementList_execute (assign_then_change ":=") empty_makefile None in
   Variables_value makefile "Y") = Some "1"
  /\ (let '(_, makefile, _) := StatementList_execute (assign_then_change "=") empty_makefile None in
      Variables_value makefile "Y") = Some "2".
Proof. split; vm_compute; reflexivity. Qed.

(** The rule [a.o b.o: a.c] on the empty model: two table entries with the
    same rule reference, [a.o] the discovered goal; the rule [%.o: %.c]:
    one implicit rule and no table entry. *)
Lemma Rule_execute_uniform_witness :
  (exists makefile',
     execute (Rule (lit "%.o") (lit "%.c") false) empty_makefile fresh
     = (Returned tt, makefile', at_rule0)
     /\ implicitrules makefile' = [0%nat]
     /\ targets makefile' = ∅)
  /\ (exists makefile',
        execute (Rule (lit "a.o b.o") (lit "a.c") false) empty_makefile fresh
        = (Returned tt, makefile', at_rule0)
        /\ targets makefile' !! "a.o" = Some (mkTarget [RuleRef 0] ∅)
        /\ targets makefile' !! "b.o" = Some (mkTarget [RuleRef 0] ∅)
        /\ targets makefile' !! "a.c" = None
        /\ defaulttarget makefile' = Some "a.o").
Proof.
  split.
  - assert (Hne : map Pattern_new
                    (_expandwildcards empty_makefile
                       (splitwords (resolve (lit "%.o") empty_makefile
                                      (variables empty_makefile)))) <> [])
      by discriminate.
    destruct (proj1 (@Rule_execute_uniform syntax collaborators (lit "%.o") (lit "%.c") false
                       empty_makefile fresh Hne))
      as (mk & Hrun & _ & Himp & Htargets).
    { vm_compute. repeat constructor. }
    exists mk. repeat split; assumption.
  - assert (Hne : map Pattern_new
                    (_expandwildcards empty_makefile
                       (splitwords (resolve (lit "a.o b.o") empty_makefile
                                      (variables empty_makefile)))) <> [])
      by discriminate.
    destruct (proj2 (@Rule_execute_uniform syntax collaborators (lit "a.o b.o") (lit "a.c") false
                       empty_makefile fresh Hne))
      as (mk & Hrun & _ & _ & Htargets & Hgoal).
    { vm_compute. repeat constructor. }
    exists mk. split; [exact Hrun|].
    split; [exact (Htargets "a.o")|]. split; [exact (Htargets "b.o")|].
    split; [exact (Htargets "a.c")|exact Hgoal].
Defined.

(** The rule [%.o b.c: %.c] fails and leaves the empty model empty. *)
Lemma Rule_execute_mixed_witness :
  execute (Rule (lit "%.o b.c") (lit "%.c") false) empty_makefile fresh
  = (Raised (DataError "Mixed implicit and normal rule" (mkLocation "Makefile" 1 0)),
     empty_makefile, fresh).
Proof.
  apply (@Rule_execute_mixed syntax collaborators (lit "%.o b.c") (lit "%.c") false
           empty_makefile fresh).
  - exists "%.o". split; [|reflexivity]. apply list_elem_of_In. vm_compute. now left.
  - exists "b.c". split; [|reflexivity]. apply list_elem_of_In. vm_compute. right. now left.
Defined.

(** The static pattern rule [a.o: %.o: %.c] makes the pattern rule object
    [0] and gives [a.o] the instance with stem [a]; [a.x: %.o: %.c] fails,
    naming [a.x] and [%.o]. *)
Lemma StaticPatternRule_execute_spec_witness :
  (exists makefile',
     execute (StaticPatternRule (lit "a.o") (lit "%.o") (lit "%.c") false) empty_makefile fresh
     = (Returned tt, makefile', at_rule0)
     /\ targets makefile' !! "a.o" = Some (mkTarget [PatternRuleInstance 0 "" "a" false] ∅)
     /\ rulestore makefile'
        = [PatternRuleObj ["%.o"] ["%.c"] false (mkLocation "Makefile" 1 0) []])
  /\ (exists makefile',
        execute (StaticPatternRule (lit "a.x") (lit "%.o") (lit "%.c") false) empty_makefile fresh
        = (Raised (DataError "Target 'a.x' does not match the static pattern '%.o'"
                     (mkLocation "Makefile" 1 0)),
           makefile', fresh)
        /\ targets makefile' !! "a.x" = None).
Proof.
  split.
  - destruct (@StaticPatternRule_execute_spec syntax collaborators
                (lit "a.o") (lit "%.o") (lit "%.c") false empty_makefile fresh "%.o")
      as [Hok _].
    { reflexivity. }
    destruct Hok as (mk & Hrun & (Hstore & Htargets & _) & _).
    { repeat constructor. now exists "a". }
    exists mk. split; [exact Hrun|]. split; [|exact Hstore].
    rewrite (Htargets "a.o"). reflexivity.
  - destruct (@StaticPatternRule_execute_spec syntax collaborators
                (lit "a.x") (lit "%.o") (lit "%.c") false empty_makefile fresh "%.o")
      as (_ & Hfail & _).
    { reflexivity. }
    destruct (Hfail [] "a.x" []) as (mk & Hrun & (_ & Htargets & _) & _).
    { reflexivity. }
    { constructor. }
    { reflexivity. }
    { reflexivity. }
    exists mk. split; [exact Hrun|].
    rewrite (Htargets "a.x"). reflexivity.
Defined.

(** In [%.x a.o: %.o: %.c] the target [a.o] is explicit and matches the
    pattern, and gets no instance: the statement ends at [%.x], with the
    error for a target that is a pattern. *)
Lemma StaticPatternRule_target_after_pattern :
  splitwords (resolve (lit "%.o") empty_makefile (variables empty_makefile)) = ["%.o"]
  /\ ispattern (Pattern_new "a.o") = false
  /\ Pattern_match (Pattern_new "%.o") "a.o" = Some "a"
  /\ exists makefile',
       execute (StaticPatternRule (lit "%.x a.o") (lit "%.o") (lit "%.c") false)
         empty_makefile fresh
       = (Raised (DataError "Target '%.x' of a static pattern rule must not be a pattern"
                    (mkLocation "Makefile" 1 0)),
          makefile', fresh)
       /\ targets makefile' !! "a.o" = None.
Proof.
  split; [reflexivity|]. split; [reflexivity|]. split; [reflexivity|].
  eexists. split; reflexivity.
Qed.

(** The example of section 8: the block with clauses [ifeq(false), else]
    executes exactly the statements of the else-clause. *)
Lemma ConditionBlock_execute_first_true_witness :
  execute (ConditionBlock noloc ifeq_else) empty_makefile fresh
  = (Returned tt, set_overrides (fun _ => ["else"]) empty_makefile, fresh)
  /\ execute (ConditionBlock noloc [(EqCondition (lit "a") (lit "b") true, [Override "then"])])
       empty_makefile fresh
     = (Returned tt, empty_makefile, fresh).
Proof.
  assert (Hpre : Forall (fun g : Condition * list Statement =>
                           Condition_evaluate g.1 empty_makefile = false)
                   [(EqCondition (lit "a") (lit "b") true, [Override "then"])])
    by (repeat constructor).
  destruct (@ConditionBlock_execute_first_true syntax collaborators noloc empty_makefile fresh)
    as [Hfirst Hnone].
  split.
  - exact (Hfirst _ ElseCondition [Override "else"] [] Hpre eq_refl).
  - exact (Hnone _ Hpre).
Defined.

(** A command under a fresh context fails the assertion; under a context
    whose current rule is the rule object [0] it is appended to the commands
    of that rule. *)
Lemma Command_execute_spec_witness :
  execute (Command (lit "cc -c a.c")) with_rule0 fresh
  = (Raised AssertionError, with_rule0, fresh)
  /\ exists makefile',
       execute (Command (lit "cc -c a.c")) with_rule0 at_rule0
       = (Returned tt, makefile', at_rule0)
       /\ rulestore makefile'
          = [RuleObj ["a.c"] false (mkLocation "Makefile" 1 0) [lit "cc -c a.c"]]
       /\ targets makefile' = targets with_rule0.
Proof.
  split.
  - exact (proj1 (@Command_execute_spec syntax collaborators (lit "cc -c a.c") with_rule0 fresh)
             eq_refl).
  - destruct (proj2 (proj2 (@Command_execute_spec syntax collaborators (lit "cc -c a.c")
                              with_rule0 at_rule0)) (RuleAt 0) eq_refl)
      as (mk & Hrun & Hmk & _ & Htargets & _).
    exists mk. split; [exact Hrun|]. split; [|exact Htargets].
    rewrite Hmk. reflexivity.
Defined.

(** The example of section 8: a second else-clause is refused and the
    clauses of the block stay as they are. *)
Example ConditionBlock_addcondition_second_else :
  ConditionBlock_addcondition (mkLocation "Makefile" 3 0) ifeq_else
    (mkLocation "Makefile" 9 0) ElseCondition
  = (Raised (SyntaxError "Multiple else conditions for block starting at Makefile:3:0"
               (mkLocation "Makefile" 9 0)),
     ifeq_else).
Proof. vm_compute. reflexivity. Qed.

(** The example of section 8: [CC=gcc all] on the command line. *)
Example parsecommandlineargs_CC_gcc_all :
  parsecommandlineargs ["CC=gcc"; "all"]
  = ([Override "CC=gcc";
      SetVariable (Expansion_fromstring "CC") "=" "gcc"
        (mkLocation "<command-line>" 0 3) None SOURCE_COMMANDLINE],
     ["all"]).
Proof. reflexivity. Qed.

(** [:=] is tried before [=], and the name is trimmed. *)
Example parsecommandlineargs_simple_first :
  parsecommandlineargs ["all"; " A := b=c"]
  = ([Override " A := b=c";
      SetVariable (Expansion_fromstring "A") ":=" " b=c"
        (mkLocation "<command-line>" 1 3) None SOURCE_COMMANDLINE],
     ["all"]).
Proof. reflexivity. Qed.

(** The examples of section 8 for tabs: a tab takes the column to the next
    multiple of four. *)
Example Location_add_tab :
  column (Location_add (mkLocation "Makefile" 1 0) (String tab "")) = 4
  /\ column (Location_add (mkLocation "Makefile" 1 3) (String tab "")) = 4
  /\ column (Location_add (mkLocation "Makefile" 1 4) (String tab "")) = 8.
Proof. repeat split. Qed.

(** A tab at column 5 takes the column no further than 8. *)
Lemma Location_add_tab_next_stop_witness :
  column (Location_add (mkLocation "Makefile" 1 5) (String tab "")) <= 8.
Proof.
  exact (proj2 (proj2 (Location_add_tab_next_stop (mkLocation "Makefile" 1 5)))
           8 eq_refl eq_refl).
Defined.

(** [A=B:=C] is cut at [:=], and the text before the cut has no [:=]. *)
Lemma split_assignment_first_witness :
  parsecommandlineargs ["A=B:=C"]
  = ([Override "A=B:=C";
      SetVariable (Expansion_fromstring "A=B") ":=" "C"
        (mkLocation "<command-line>" 0 5) None SOURCE_COMMANDLINE],
     [])
  /\ PyStr.find_split ":=" "A=B" = None.
Proof.
  destruct (@split_assignment_first syntax "A=B:=C" "A=B" ":=" "C" eq_refl)
    as (Hparse & _ & Hfirst & _).
  split; [exact Hparse|exact Hfirst].
Defined.

(** An assignment to the empty name, one with the operator [!=], and one
    with an unknown operator for no target at all. *)
Lemma SetVariable_execute_errors_witness :
  execute (SetVariable (lit "") "=" "1" noloc None SOURCE_MAKEFILE) empty_makefile fresh
  = (Raised (DataError "Empty variable name" (mkLocation "Makefile" 1 0)),
     empty_makefile, fresh)
  /\ execute (SetVariable (lit "X") "!=" "1" noloc None SOURCE_MAKEFILE) empty_makefile fresh
     = (Raised AssertionError, empty_makefile, fresh)
  /\ execute (SetVariable (lit "X") "!=" "1" noloc (Some (lit "")) SOURCE_MAKEFILE)
       empty_makefile fresh
     = (Returned tt, empty_makefile, fresh).
Proof.
  split; [|split].
  - exact (proj1 (@SetVariable_execute_errors syntax collaborators (lit "") "=" "1" noloc
                    SOURCE_MAKEFILE empty_makefile fresh) None eq_refl).
  - apply (proj1 (proj2 (@SetVariable_execute_errors syntax collaborators (lit "X") "!=" "1"
                           noloc SOURCE_MAKEFILE empty_makefile fresh))); discriminate.
  - apply (proj2 (proj2 (@SetVariable_execute_errors syntax collaborators (lit "X") "!=" "1"
                           noloc SOURCE_MAKEFILE empty_makefile fresh)) (lit ""));
      [discriminate|reflexivity].
Defined.

(** With [X] bound to [1], [X ?= 2] changes nothing and [Y ?= 2] binds
    [Y]. *)
Lemma SetVariable_execute_default_witness :
  execute (SetVariable (lit "X") "?=" "2" noloc None SOURCE_MAKEFILE) (with_X "1") fresh
  = (Returned tt, with_X "1", fresh)
  /\ exists makefile',
       execute (SetVariable (lit "Y") "?=" "2" noloc None SOURCE_MAKEFILE) (with_X "1") fresh
       = (Returned tt, makefile', fresh)
       /\ variables makefile' !! "Y" = Some (FLAVOR_RECURSIVE, SOURCE_MAKEFILE, "2").
Proof.
  split.
  - apply (@SetVariable_execute_default syntax collaborators (lit "X") "2" noloc
             SOURCE_MAKEFILE (with_X "1") fresh); [discriminate|].
    eexists. reflexivity.
  - destruct (@SetVariable_execute_default syntax collaborators (lit "Y") "2" noloc
                SOURCE_MAKEFILE (with_X "1") fresh) as [_ Habsent]; [discriminate|].
    destruct (Habsent eq_refl) as (_ & makefile' & Hrun & Hvars).
    exists makefile'. split; [exact Hrun|]. rewrite Hvars. reflexivity.
Defined.

(** The block [ifeq ... else ...]: a statement can still be appended, and a
    further clause is refused. *)
Lemma ConditionBlock_else_only_last_witness :
  else_only_last (ConditionBlock_append ifeq_else (Override "more"))
  /\ exists e, (ConditionBlock_addcondition noloc ifeq_else noloc ElseCondition).1 = Raised e.
Proof.
  assert (Hwf : else_only_last ifeq_else).
  { intros pre post Heq. destruct pre as [|c1 [|c2 [|c3 pre]]]; try discriminate Heq.
    now injection Heq. }
  destruct (@ConditionBlock_else_only_last syntax noloc noloc ifeq_else Hwf)
    as (_ & _ & Happend & Hraise).
  split; [exact (proj1 (Happend (Override "more")))|].
  apply (Hraise ElseCondition). right. left.
Defined.

(** The block [ifeq (a,b) ... else ...] runs its else-clause. *)
Lemma ConditionBlock_execute_with_else_witness :
  execute (ConditionBlock noloc ifeq_else) empty_makefile fresh
  = StatementList_run [Override "else"] empty_makefile fresh.
Proof.
  apply (proj2 (@ConditionBlock_execute_with_else syntax collaborators noloc
                  [(@EqCondition syntax (lit "a") (lit "b") true, [@Override syntax "then"])]
                  [@Override syntax "else"] empty_makefile fresh)).
  repeat constructor.
Defined.

(** A rule whose target text is empty: the command after it is dropped. *)
Lemma Rule_execute_no_targets_witness :
  StatementList_run [Rule (lit "") (lit "a.c") false; Command (lit "cc -c a.c")]
    empty_makefile fresh
  = (Returned tt, empty_makefile, mkContext (Some DummyRule)).
Proof.
  exact (proj1 (@Rule_execute_no_targets syntax collaborators (lit "") (lit "%.o") (lit "a.c")
                  false [lit "cc -c a.c"] empty_makefile fresh eq_refl)).
Defined.

(** The rule [a.o: a.c] with two command lines. *)
Lemma Rule_then_commands_witness :
  exists makefile',
    StatementList_run
      [Rule (lit "a.o") (lit "a.c") false; Command (lit "cc -c a.c"); Command (lit "echo done")]
      empty_makefile fresh
    = (Returned tt, makefile', at_rule0)
    /\ RuleObject_commands <$> rulestore makefile' !! 0%nat
       = Some [lit "cc -c a.c"; lit "echo done"].
Proof.
  destruct (@Rule_then_commands syntax collaborators (lit "a.o") (lit "a.c") false
              [lit "cc -c a.c"; lit "echo done"] empty_makefile fresh false)
    as (makefile' & Hrun & _ & Hcommands & _).
  { discriminate. }
  { vm_compute. repeat constructor. }
  exists makefile'. split; [exact Hrun|exact Hcommands].
Defined.

(** [a.o: %.o %.x: %.c] has two patterns; in [a.o %.o: %.o: %.c] the second
    target is a pattern. *)
Lemma StaticPatternRule_execute_errors_witness :
  execute (StaticPatternRule (lit "a.o") (lit "%.o %.x") (lit "%.c") false) empty_makefile fresh
  = (Raised (DataError "Static pattern rules must have a single pattern"
               (mkLocation "Makefile" 1 0)),
     empty_makefile, fresh)
  /\ exists makefile',
       execute (StaticPatternRule (lit "a.o %.o") (lit "%.o") (lit "%.c") false)
         empty_makefile fresh
       = (Raised (DataError "Target '%.o' of a static pattern rule must not be a pattern"
                    (mkLocation "Makefile" 1 0)),
          makefile', fresh)
       /\ length (rulestore makefile') = 1%nat
       /\ defaulttarget makefile' = None.
Proof.
  split.
  - apply (@StaticPatternRule_execute_errors syntax collaborators (lit "a.o") (lit "%.o %.x")
             (lit "%.c") false empty_makefile fresh); discriminate.
  - destruct (@StaticPatternRule_execute_errors syntax collaborators (lit "a.o %.o") (lit "%.o")
                (lit "%.c") false empty_makefile fresh) as [_ Hpattern]; [discriminate|].
    destruct (Hpattern "%.o" ["a.o"] "%.o" [])
      as (makefile' & obj & Hrun & Hstore & Hgoal & _).
    { reflexivity. }
    { reflexivity. }
    { repeat constructor. }
    { repeat constructor. now exists "a". }
    { reflexivity. }
    exists makefile'. split; [exact Hrun|]. split; [|exact Hgoal].
    rewrite Hstore. reflexivity.
Defined.

(** [a.o: CFLAGS = -O2] on the empty model. *)
Lemma SetVariable_execute_target_scope_witness :
  exists makefile' entry,
    execute (SetVariable (lit "CFLAGS") "=" "-O2" noloc (Some (lit "a.o")) SOURCE_MAKEFILE)
      empty_makefile fresh
    = (Returned tt, makefile', fresh)
    /\ targets makefile' !! "a.o" = Some entry
    /\ tvariables entry !! "CFLAGS" = Some (FLAVOR_RECURSIVE, SOURCE_MAKEFILE, "-O2")
    /\ rules entry = []
    /\ variables makefile' = ∅.
Proof.
  destruct (@SetVariable_execute_target_scope syntax collaborators (lit "CFLAGS") "-O2" noloc
              (lit "a.o") SOURCE_MAKEFILE empty_makefile fresh "a.o")
    as (makefile' & entry & Hrun & Hentry & Hbinding & _ & Hrules & Hglobal).
  { discriminate. }
  { reflexivity. }
  { reflexivity. }
  { intros flavor prevsource old Hl. discriminate Hl. }
  exists makefile', entry. repeat split; assumption.
Defined.

(** With the one file [defs.mk]: [include defs.mk missing.mk] fails at
    [missing.mk] and keeps what [defs.mk] has bound; [-include missing.mk
    defs.mk] returns with [DEFS] bound. *)
Lemma Include_execute_first_failure_witness :
  (exists makefile',
     @execute syntax Files.collaborators (Include (lit "defs.mk missing.mk") true)
       empty_makefile fresh
     = (Raised (DataError "No such file: missing.mk" (mkLocation "Makefile" 1 0)),
        makefile', fresh)
     /\ variables makefile' !! "DEFS" = Some (FLAVOR_RECURSIVE, SOURCE_MAKEFILE, "1"))
  /\ (exists makefile',
        @execute syntax Files.collaborators (Include (lit "missing.mk defs.mk") false)
          empty_makefile fresh
        = (Returned tt, makefile', fresh)
        /\ variables makefile' !! "DEFS" = Some (FLAVOR_RECURSIVE, SOURCE_MAKEFILE, "1")).
Proof.
  split.
  - eexists. split.
    + apply (proj1 (proj2 (@Include_execute_first_failure syntax Files.collaborators
                             (lit "defs.mk missing.mk") true empty_makefile fresh))
               ["defs.mk"] "missing.mk" []).
      * reflexivity.
      * intros [|x [|y pre']] g post' Heq; try discriminate Heq.
        injection Heq as <- <-. reflexivity.
      * reflexivity.
    + reflexivity.
  - eexists. split.
    + apply (proj1 (@Include_execute_first_failure syntax Files.collaborators
                      (lit "missing.mk defs.mk") false empty_makefile fresh)).
      intros [|x [|y [|z pre]]] f post Heq; try discriminate Heq.
      * injection Heq as <- <-. reflexivity.
      * injection Heq as <- <- <-. reflexivity.
    + reflexivity.
Defined.

(** [vpath %.c src::lib:] adds the directories [src] and [lib]. *)
Lemma VPathDirective_execute_spec_witness :
  vpaths (execute (VPathDirective (lit "%.c src::lib:")) empty_makefile fresh).1.2
  = [("%.c", ["src"; "lib"])].
Proof.
  exact (proj1 (proj2 (proj2 (proj2 (proj2 (proj2
           (@VPathDirective_execute_spec syntax collaborators (lit "%.c src::lib:")
              empty_makefile fresh)))))
           "%.c" "src::lib:" [] eq_refl)).
Defined.

(** [export] with nothing after it is refused; the single form takes the
    text as it is. *)
Lemma ExportDirective_execute_spec_witness :
  execute (ExportDirective (lit " ") false) empty_makefile fresh
  = (Raised (DataError "Exporting all variables is not supported" (mkLocation "Makefile" 1 0)),
     empty_makefile, fresh)
  /\ (execute (ExportDirective (lit " ") true) empty_makefile fresh).1.1 = Returned tt.
Proof.
  split.
  - exact (proj1 (proj2 (proj2 (proj2 (proj2
             (@ExportDirective_execute_spec syntax collaborators (lit " ") false
                empty_makefile fresh))))) eq_refl eq_refl).
  - exact (proj1 (proj1 (proj2 (proj2 (proj2
             (@ExportDirective_execute_spec syntax collaborators (lit " ") true
                empty_makefile fresh)))) eq_refl)).
Defined.

(** A line of two spaces is empty; a line with a letter is not. *)
Lemma EmptyDirective_execute_spec_witness :
  execute (EmptyDirective (lit "  ")) empty_makefile fresh = (Returned tt, empty_makefile, fresh)
  /\ execute (EmptyDirective (lit " x")) empty_makefile fresh
     = (Raised (DataError "Line expands to non-empty value" (mkLocation "Makefile" 1 0)),
        empty_makefile, fresh).
Proof.
  split.
  - apply (proj1 (@EmptyDirective_execute_spec syntax collaborators (lit "  ")
                    empty_makefile fresh)).
    repeat constructor.
  - apply (proj2 (@EmptyDirective_execute_spec syntax collaborators (lit " x")
                    empty_makefile fresh)).
    right. left. reflexivity.
Defined.

(** Two words without glob syntax are kept. *)
Lemma _expandwildcards_spec_witness :
  _expandwildcards empty_makefile ["a.c"; "b.c"] = ["a.c"; "b.c"].
Proof.
  apply (proj1 (proj2 (@_expandwildcards_spec syntax collaborators empty_makefile
                         ["a.c"; "b.c"]))).
  repeat constructor.
Defined.

(** An assignment and a conditional block between a rule and its command
    leave the rule current. *)
Lemma StatementList_run_rule_free_witness :
  (StatementList_run
     [SetVariable (lit "X") "=" "1" noloc None SOURCE_MAKEFILE; ConditionBlock noloc ifeq_else]
     with_rule0 at_rule0).2
  = at_rule0.
Proof.
  exact (proj1 (@StatementList_run_rule_free syntax collaborators
                  [SetVariable (lit "X") "=" "1" noloc None SOURCE_MAKEFILE;
                   ConditionBlock noloc ifeq_else]
                  with_rule0 at_rule0 eq_refl)).
Defined.

(** [CC=gcc all] on the command line, and the second argument [ A := b=c]:
    the cut is at [:=], the name is [A]. *)
Lemma parsecommandlineargs_spec_witness :
  parsecommandlineargs ["CC=gcc"; "all"]
  = ([Override "CC=gcc";
      SetVariable (Expansion_fromstring "CC") "=" "gcc"
        (mkLocation "<command-line>" 0 3) None SOURCE_COMMANDLINE],
     ["all"])
  /\ exists name,
       is_trim " A " name
       /\ commandline_statements 1 " A := b=c"
          = [Override " A := b=c";
             SetVariable (Expansion_fromstring name) ":=" " b=c"
               (mkLocation "<command-line>" 1 (PyStr.len name + 2)) None SOURCE_COMMANDLINE].
Proof.
  destruct (@parsecommandlineargs_spec syntax ["CC=gcc"; "all"]) as (Hrest & Hstmts & Hshape).
  split.
  - rewrite (surjective_pairing (parsecommandlineargs ["CC=gcc"; "all"])), Hrest, Hstmts.
    reflexivity.
  - apply (proj1 (Hshape 1 " A := b=c") " A " " b=c" eq_refl).
    intros Ho. now apply (find_split_occurs ":=" " A ").
Defined.

End Instances.
